(** * PCF8574 driver for micro:bit: latch model and pin semantics

    The repository ships two [Device] classes in namespace [pcf8574]:
    the hardware-only one of [main.ts] and the simulator-safe one
    (v0.2.0, with an in-memory mock latch).  Both are embedded here, each
    in a module of its own, over a common model of the host:

    - TypeScript [number]s that go through [|], [&], [~] and [<<] are
      integers of [Z], the operators coerce to 32 bits as JavaScript does;
    - the enums [Pin] and [Address] are inductive types with their values;
    - a method is a function from the object's fields and the bus to its
      result, the new fields, the new bus and the events it emitted
      (I2C traffic, cooperative pauses, and a ghost marker for [begin]). *)

From Stdlib Require Import ZArith List Bool String Lia.
Import ListNotations.
Local Open Scope Z_scope.

(** ** JavaScript bitwise operators on integers *)

Module JS.

(** [ToInt32]: wrap into the signed 32-bit range. *)
Definition toInt32 (z : Z) : Z := (z + 2 ^ 31) mod 2 ^ 32 - 2 ^ 31.

(** [a & b] *)
Definition band (a b : Z) : Z := Z.land (toInt32 a) (toInt32 b).

(** [a | b] *)
Definition bor (a b : Z) : Z := Z.lor (toInt32 a) (toInt32 b).

(** [~a] *)
Definition bnot (a : Z) : Z := Z.lnot (toInt32 a).

(** [a << n]: the shift count is taken modulo 32. *)
Definition shl (a n : Z) : Z := toInt32 (Z.shiftl (toInt32 a) (n mod 32)).

(** [a == b] and [a !== b] on numbers. *)
Definition eq (a b : Z) : bool := Z.eqb a b.
Definition neq (a b : Z) : bool := negb (Z.eqb a b).

End JS.

Declare Scope js_scope.
Delimit Scope js_scope with js.
Infix ".&" := JS.band (at level 40, left associativity) : js_scope.
Infix ".|" := JS.bor (at level 50, left associativity) : js_scope.
Notation ".~ a" := (JS.bnot a) (at level 35, right associativity) : js_scope.
Infix ".<<" := JS.shl (at level 38, left associativity) : js_scope.
Local Open Scope js_scope.

(** ** The enums of namespace [pcf8574] *)

Inductive Address : Set :=
| Addr0x20 | Addr0x21 | Addr0x22 | Addr0x23
| Addr0x24 | Addr0x25 | Addr0x26 | Addr0x27
| Addr0x38 | Addr0x39 | Addr0x3A | Addr0x3B
| Addr0x3C | Addr0x3D | Addr0x3E | Addr0x3F.

Definition addressValue (a : Address) : Z :=
  match a with
  | Addr0x20 => 0x20 | Addr0x21 => 0x21 | Addr0x22 => 0x22 | Addr0x23 => 0x23
  | Addr0x24 => 0x24 | Addr0x25 => 0x25 | Addr0x26 => 0x26 | Addr0x27 => 0x27
  | Addr0x38 => 0x38 | Addr0x39 => 0x39 | Addr0x3A => 0x3A | Addr0x3B => 0x3B
  | Addr0x3C => 0x3C | Addr0x3D => 0x3D | Addr0x3E => 0x3E | Addr0x3F => 0x3F
  end.

Inductive Pin : Set := P0 | P1 | P2 | P3 | P4 | P5 | P6 | P7.

Definition pinValue (p : Pin) : Z :=
  match p with
  | P0 => 0 | P1 => 1 | P2 => 2 | P3 => 3
  | P4 => 4 | P5 => 5 | P6 => 6 | P7 => 7
  end.

(** ** The host: I2C bus, pauses, events *)

(** What a method does that is visible from outside the object.
    [CallBegin] is a ghost marker: [begin] emits it on entry, so that the
    number of times [begin] ran can be read off a trace. *)
Inductive Event : Type :=
| I2CWrite (address value : Z)
| I2CRead (address value : Z)
| Pause (ms : Z)
| CallBegin.

Definition is_write (e : Event) : bool :=
  match e with I2CWrite _ _ => true | _ => false end.
Definition is_read (e : Event) : bool :=
  match e with I2CRead _ _ => true | _ => false end.
Definition is_pause (e : Event) : bool :=
  match e with Pause _ => true | _ => false end.
Definition is_begin (e : Event) : bool :=
  match e with CallBegin => true | _ => false end.

Definition count (f : Event -> bool) (t : list Event) : nat :=
  List.length (List.filter f t).

(** The bus as the program sees it: [oracle n] is what the chip answers to
    the [n]-th read transaction, [cursor] counts the reads made so far. *)
Record Bus : Type := mkBus { oracle : nat -> Z; cursor : nat }.

(** Outcome of running a method on fields [D]. *)
Record Out (D A : Type) : Type := mkOut
  { result : A; device : D; wire : Bus; emitted : list Event }.
Arguments mkOut {D A} _ _ _ _.
Arguments result {D A} _.
Arguments device {D A} _.
Arguments wire {D A} _.
Arguments emitted {D A} _.

Definition M (D A : Type) : Type := D -> Bus -> Out D A.

Definition ret {D A} (a : A) : M D A := fun d b => mkOut a d b [].

Definition bind {D A B} (m : M D A) (k : A -> M D B) : M D B :=
  fun d b =>
    match m d b with
    | mkOut a d1 b1 t1 =>
        match k a d1 b1 with
        | mkOut x d2 b2 t2 => mkOut x d2 b2 (t1 ++ t2)
        end
    end.

Declare Scope method_scope.
Delimit Scope method_scope with method.
Notation "x <- m ;; k" := (bind m (fun x => k))
  (at level 61, m at next level, right associativity) : method_scope.
Notation "m ;; k" := (bind m (fun _ => k))
  (at level 61, right associativity) : method_scope.
Local Open Scope method_scope.

(** [this]: read the object's fields; [assign f]: update them. *)
Definition this {D} : M D D := fun d b => mkOut d d b [].
Definition assign {D} (f : D -> D) : M D unit := fun d b => mkOut tt (f d) b [].
Definition emit {D} (e : Event) : M D unit := fun d b => mkOut tt d b [e].

(** [pins.i2cWriteNumber(address, value, NumberFormat.UInt8BE, false)] *)
Definition i2cWriteNumber {D} (address value : Z) : M D unit :=
  emit (I2CWrite address value).

(** [pins.i2cReadNumber(address, NumberFormat.UInt8BE, false)]: one
    unsigned byte from the chip. *)
Definition i2cReadNumber {D} (address : Z) : M D Z :=
  fun d b =>
    let v := oracle b (cursor b) mod 256 in
    mkOut v d (mkBus (oracle b) (S (cursor b))) [I2CRead address v].

(** [basic.pause(ms)] *)
Definition pause {D} (ms : Z) : M D unit := emit (Pause ms).

(** [if (c) body], without else. *)
Definition when {D} (c : bool) (body : M D unit) : M D unit :=
  if c then body else ret tt.

(** A parameter with a default value. *)
Definition defaulted {A} (dflt : A) (arg : option A) : A :=
  match arg with Some a => a | None => dflt end.

(** ** [main.ts]: the hardware-only [Device] *)

Module Hw.

Record Device : Type := mkDevice
  { addr : Z; latch : Z; initialized : bool }.

Definition set_latch (v : Z) (d : Device) : Device :=
  mkDevice (addr d) v (initialized d).
Definition set_initialized (v : bool) (d : Device) : Device :=
  mkDevice (addr d) (latch d) v.

(** [constructor(address: Address)] *)
Definition constructor (address : Address) : Device :=
  {| addr := addressValue address; latch := 0xFF; initialized := false |}.

(** [private writeByte(b: number)] *)
Definition writeByte (b : Z) : M Device unit :=
  d <- this ;;
  i2cWriteNumber (addr d) (b .& 0xFF).

(** [begin()] *)
Definition begin : M Device unit :=
  emit CallBegin ;;
  d <- this ;;
  writeByte (latch d) ;;
  assign (set_initialized true).

(** [private ensureInit()] *)
Definition ensureInit : M Device unit :=
  d <- this ;;
  when (negb (initialized d)) begin.

(** [readPort(): number] *)
Definition readPort : M Device Z :=
  ensureInit ;;
  d <- this ;;
  v <- i2cReadNumber (addr d) ;;
  ret (v .& 0xFF).

(** [writePort(value: number)] *)
Definition writePort (value : Z) : M Device unit :=
  ensureInit ;;
  assign (set_latch (value .& 0xFF)) ;;
  d <- this ;;
  writeByte (latch d).

(** [readPin(pin: Pin): boolean] *)
Definition readPin (pin : Pin) : M Device bool :=
  ensureInit ;;
  let mask := 1 .<< pinValue pin in
  d <- this ;;
  assign (set_latch (latch d .| mask)) ;;
  d <- this ;;
  writeByte (latch d) ;;
  v <- readPort ;;
  ret (JS.neq (v .& mask) 0).

(** [writePin(pin: Pin, high: boolean)] *)
Definition writePin (pin : Pin) (high : bool) : M Device unit :=
  ensureInit ;;
  let mask := 1 .<< pinValue pin in
  d <- this ;;
  (if high then assign (set_latch (latch d .| mask))
   else assign (set_latch (latch d .& .~ mask))) ;;
  d <- this ;;
  writeByte (latch d).

(** [buttonPressed(pin: Pin, debounceMs: number = 20): boolean] *)
Definition buttonPressed (pin : Pin) (debounceMs : option Z) : M Device bool :=
  let debounceMs := defaulted 20 debounceMs in
  r <- readPin pin ;;
  if Bool.eqb r false then
    if 0 <? debounceMs then
      pause debounceMs ;;
      r' <- readPin pin ;;
      ret (Bool.eqb r' false)
    else ret true
  else ret false.

(** [led(pin: Pin, on: boolean, activeLow: boolean = true)] *)
Definition led (pin : Pin) (on : bool) (activeLow : option bool) : M Device unit :=
  let activeLow := defaulted true activeLow in
  let driveLow := if activeLow then on else negb on in
  writePin pin (negb driveLow).

(** [setInput(pin: Pin)] *)
Definition setInput (pin : Pin) : M Device unit := writePin pin true.

(** [setOutputLow(pin: Pin)] *)
Definition setOutputLow (pin : Pin) : M Device unit := writePin pin false.

(** [export function create(address: Address): Device] *)
Definition create (address : Address) : Device := constructor address.

(** The public operations that initialize lazily. *)
Inductive Call : Type :=
| CreadPort
| CwritePort (value : Z)
| CreadPin (pin : Pin)
| CwritePin (pin : Pin) (high : bool)
| CbuttonPressed (pin : Pin) (debounceMs : option Z)
| Cled (pin : Pin) (on : bool) (activeLow : option bool)
| CsetInput (pin : Pin)
| CsetOutputLow (pin : Pin).

Definition exec (c : Call) : M Device unit :=
  match c with
  | CreadPort => readPort ;; ret tt
  | CwritePort v => writePort v
  | CreadPin p => readPin p ;; ret tt
  | CwritePin p h => writePin p h
  | CbuttonPressed p ms => buttonPressed p ms ;; ret tt
  | Cled p on al => led p on al
  | CsetInput p => setInput p
  | CsetOutputLow p => setOutputLow p
  end.

End Hw.

(** ** The simulator-safe [Device] (v0.2.0) *)

(** A call into the host either returns or throws. *)
Inductive Outcome (A : Type) : Type :=
| Normal (a : A)
| Throw (e : string).
Arguments Normal {A} _.
Arguments Throw {A} _.

Definition obind {A B} (m : Outcome A) (k : A -> Outcome B) : Outcome B :=
  match m with Normal a => k a | Throw e => Throw e end.

(** [try { body } catch { handler }] *)
Definition try_catch {A} (body : Outcome A) (handler : string -> Outcome A)
  : Outcome A :=
  match body with Normal a => Normal a | Throw e => handler e end.

Module Sim.

(** [function isSimulator(): boolean], over the outcome of the host's
    [control.deviceDalVersion()]. The assignment to [v] happens only if
    the call returned. *)
Definition isSimulator (deviceDalVersion : Outcome string) : Outcome bool :=
  let v := EmptyString in
  obind (try_catch (obind deviceDalVersion (fun s => Normal s))
                   (fun _ => Normal v))
        (fun v => Normal (String.eqb v "sim")).

Record Device : Type := mkDevice
  { addr : Z; latch : Z; initialized : bool; sim : bool; simPort : Z }.

Definition set_latch (v : Z) (d : Device) : Device :=
  mkDevice (addr d) v (initialized d) (sim d) (simPort d).
Definition set_initialized (v : bool) (d : Device) : Device :=
  mkDevice (addr d) (latch d) v (sim d) (simPort d).
Definition set_simPort (v : Z) (d : Device) : Device :=
  mkDevice (addr d) (latch d) (initialized d) (sim d) v.

(** [constructor(address: Address)] *)
Definition constructor (host : Outcome string) (address : Address)
  : Outcome Device :=
  obind (isSimulator host) (fun s =>
  Normal {| addr := addressValue address; latch := 0xFF;
            initialized := false; sim := s; simPort := 0xFF |}).

(** [private writeByte(b: number)] *)
Definition writeByte (b : Z) : M Device unit :=
  d <- this ;;
  i2cWriteNumber (addr d) (b .& 0xFF).

(** [begin()] *)
Definition begin : M Device unit :=
  emit CallBegin ;;
  d <- this ;;
  (if sim d then assign (set_simPort (latch d .& 0xFF))
   else writeByte (latch d)) ;;
  assign (set_initialized true).

(** [private ensureInit()] *)
Definition ensureInit : M Device unit :=
  d <- this ;;
  when (negb (initialized d)) begin.

(** [readPort(): number] *)
Definition readPort : M Device Z :=
  ensureInit ;;
  d <- this ;;
  if sim d then
    let forcedLowMask := (.~ latch d) .& 0xFF in
    ret ((simPort d .& latch d) .| (0 .& forcedLowMask))
  else
    v <- i2cReadNumber (addr d) ;;
    ret (v .& 0xFF).

(** [writePort(value: number)] *)
Definition writePort (value : Z) : M Device unit :=
  ensureInit ;;
  assign (set_latch (value .& 0xFF)) ;;
  d <- this ;;
  if sim d then ret tt
  else writeByte (latch d).

(** [readPin(pin: Pin): boolean] *)
Definition readPin (pin : Pin) : M Device bool :=
  ensureInit ;;
  let mask := 1 .<< pinValue pin in
  d <- this ;;
  when (JS.eq (latch d .& mask) 0)
    (assign (set_latch (latch d .| mask)) ;;
     d <- this ;;
     when (negb (sim d)) (writeByte (latch d))) ;;
  v <- readPort ;;
  ret (JS.neq (v .& mask) 0).

(** [writePin(pin: Pin, high: boolean)] *)
Definition writePin (pin : Pin) (high : bool) : M Device unit :=
  ensureInit ;;
  let mask := 1 .<< pinValue pin in
  d <- this ;;
  (if high then assign (set_latch (latch d .| mask))
   else assign (set_latch (latch d .& .~ mask))) ;;
  d <- this ;;
  if sim d then ret tt
  else writeByte (latch d).

(** [buttonPressed(pin: Pin, debounceMs: number = 20): boolean] *)
Definition buttonPressed (pin : Pin) (debounceMs : option Z) : M Device bool :=
  let debounceMs := defaulted 20 debounceMs in
  r <- readPin pin ;;
  if Bool.eqb r false then
    if 0 <? debounceMs then
      pause debounceMs ;;
      r' <- readPin pin ;;
      ret (Bool.eqb r' false)
    else ret true
  else ret false.

(** [led(pin: Pin, on: boolean, activeLow: boolean = true)] *)
Definition led (pin : Pin) (on : bool) (activeLow : option bool) : M Device unit :=
  let activeLow := defaulted true activeLow in
  let driveLow := if activeLow then on else negb on in
  writePin pin (negb driveLow).

(** [setInput(pin: Pin)] *)
Definition setInput (pin : Pin) : M Device unit := writePin pin true.

(** [setOutputLow(pin: Pin)] *)
Definition setOutputLow (pin : Pin) : M Device unit := writePin pin false.

(** [setSimPinHigh(pin: Pin)] *)
Definition setSimPinHigh (pin : Pin) : M Device unit :=
  d <- this ;;
  if negb (sim d) then ret tt
  else assign (set_simPort (simPort d .| (1 .<< pinValue pin))).

(** [setSimPinLow(pin: Pin)] *)
Definition setSimPinLow (pin : Pin) : M Device unit :=
  d <- this ;;
  if negb (sim d) then ret tt
  else assign (set_simPort (simPort d .& .~ (1 .<< pinValue pin))).

(** [export function create(address: Address): Device] *)
Definition create (host : Outcome string) (address : Address)
  : Outcome Device := constructor host address.

(** The public operations of a [Device] other than [begin]. *)
Inductive Call : Type :=
| CreadPort
| CwritePort (value : Z)
| CreadPin (pin : Pin)
| CwritePin (pin : Pin) (high : bool)
| CbuttonPressed (pin : Pin) (debounceMs : option Z)
| Cled (pin : Pin) (on : bool) (activeLow : option bool)
| CsetInput (pin : Pin)
| CsetOutputLow (pin : Pin)
| CsetSimPinHigh (pin : Pin)
| CsetSimPinLow (pin : Pin).

Definition exec (c : Call) : M Device unit :=
  match c with
  | CreadPort => readPort ;; ret tt
  | CwritePort v => writePort v
  | CreadPin p => readPin p ;; ret tt
  | CwritePin p h => writePin p h
  | CbuttonPressed p ms => buttonPressed p ms ;; ret tt
  | Cled p on al => led p on al
  | CsetInput p => setInput p
  | CsetOutputLow p => setOutputLow p
  | CsetSimPinHigh p => setSimPinHigh p
  | CsetSimPinLow p => setSimPinLow p
  end.

(** The operations that call [ensureInit]. *)
Definition lazily_initializing (c : Call) : bool :=
  match c with
  | CsetSimPinHigh _ | CsetSimPinLow _ => false
  | _ => true
  end.

(** The states a program can bring a [Device] to: [create], then public
    calls ([begin] included) against any bus. *)
Inductive reachable : Device -> Prop :=
| reach_create host address d :
    create host address = Normal d -> reachable d
| reach_begin d b :
    reachable d -> reachable (device (begin d b))
| reach_call c d b :
    reachable d -> reachable (device (exec c d b)).

End Sim.

(** ** Vocabulary of the properties *)

Definition byte (z : Z) : Prop := 0 <= z < 256.

(** What holds of the fields of a simulator-safe [Device] between calls:
    both bytes are bytes, and the latch still has its power-on value as
    long as [begin] has not run. *)
Definition sim_wf (d : Sim.Device) : Prop :=
  byte (Sim.latch d) /\ byte (Sim.simPort d) /\
  (Sim.initialized d = false -> Sim.latch d = 0xFF).

(** Lazy initialization of a method [m]: on an object whose [initialized]
    flag is off, running [m] is running [begin] and then [m]; [begin] is
    entered once, and nothing is emitted before it. *)
Definition lazy_init {D} (begin : M D unit) (initialized : D -> bool)
           (m : M D unit) : Prop :=
  forall d b,
    initialized d = false ->
    m d b = (begin ;; m) d b /\
    count is_begin (emitted (m d b)) = 1%nat /\
    hd_error (emitted (m d b)) = Some CallBegin.

(** A method that does nothing at all. *)
Definition no_effect {D} (m : M D unit) (d : D) (b : Bus) : Prop :=
  m d b = mkOut tt d b [].

(** [readPin] pushes the latch to the chip only for a pin that is driven
    low: on an initialized object whose latch has the pin's bit set, it
    writes nothing to the bus. *)
Definition push_only_if_driven_low {D} (initialized : D -> bool)
           (latch : D -> Z) (readPin : Pin -> M D bool) : Prop :=
  forall p d b,
    initialized d = true ->
    Z.testbit (latch d) (pinValue p) = true ->
    count is_write (emitted (readPin p d b)) = 0%nat.

(** The level [led] asks [writePin] for. *)
Definition led_level (on : bool) (activeLow : option bool) : bool :=
  negb (if defaulted true activeLow then on else negb on).

(** The debounce policy of [buttonPressed], over the class's [readPin]:
    [o1] is the first read, [o2] the read made after the pause. *)
Definition debounce_policy {D} (readPin : Pin -> M D bool)
           (buttonPressed : Pin -> option Z -> M D bool)
           (p : Pin) (debounceMs : option Z) (d : D) (b : Bus) : Prop :=
  let ms := defaulted 20 debounceMs in
  let o1 := readPin p d b in
  let o := buttonPressed p debounceMs d b in
  (result o1 = true ->
   o = mkOut false (device o1) (wire o1) (emitted o1) /\
   count is_pause (emitted o) = 0%nat) /\
  (result o1 = false -> ms = 0 ->
   o = mkOut true (device o1) (wire o1) (emitted o1) /\
   count is_pause (emitted o) = 0%nat) /\
  (result o1 = false -> 0 < ms ->
   let o2 := readPin p (device o1) (wire o1) in
   o = mkOut (negb (result o2)) (device o2) (wire o2)
             (emitted o1 ++ Pause ms :: emitted o2) /\
   filter is_pause (emitted o) = [Pause ms] /\
   (result o = true <-> result o2 = false)).

(** The states a program can bring a hardware-only [Device] to. *)
Inductive hw_reachable : Hw.Device -> Prop :=
| hw_reach_create address : hw_reachable (Hw.create address)
| hw_reach_begin d b : hw_reachable d -> hw_reachable (device (Hw.begin d b))
| hw_reach_call c d b : hw_reachable d -> hw_reachable (device (Hw.exec c d b)).

Definition hw_wf (d : Hw.Device) : Prop :=
  byte (Hw.latch d) /\ (Hw.initialized d = false -> Hw.latch d = 0xFF).

(** The fields the two classes share. *)
Definition forget (d : Sim.Device) : Hw.Device :=
  Hw.mkDevice (Sim.addr d) (Sim.latch d) (Sim.initialized d).

(** A call of the hardware-only class, made on the simulator-safe one. *)
Definition sim_call (c : Hw.Call) : Sim.Call :=
  match c with
  | Hw.CreadPort => Sim.CreadPort
  | Hw.CwritePort v => Sim.CwritePort v
  | Hw.CreadPin p => Sim.CreadPin p
  | Hw.CwritePin p h => Sim.CwritePin p h
  | Hw.CbuttonPressed p ms => Sim.CbuttonPressed p ms
  | Hw.Cled p on al => Sim.Cled p on al
  | Hw.CsetInput p => Sim.CsetInput p
  | Hw.CsetOutputLow p => Sim.CsetOutputLow p
  end.

(** The calls that go through [readPin]. *)
Definition reads_pin (c : Hw.Call) : bool :=
  match c with
  | Hw.CreadPin _ | Hw.CbuttonPressed _ _ => true
  | _ => false
  end.

(** Bus traffic of a well-behaved driver at address [a]: every
    transaction names [a] and carries one byte. *)
Definition own_traffic (a : Z) (e : Event) : Prop :=
  match e with
  | I2CWrite a' v | I2CRead a' v => a' = a /\ byte v
  | Pause _ | CallBegin => True
  end.

Definition is_bus (e : Event) : bool := is_write e || is_read e.
Definition not_write (e : Event) : bool := negb (is_write e).

(** The chip addresses: PCF8574 at 0x20..0x27, PCF8574A at 0x38..0x3F. *)
Definition chip_address (a : Z) : Prop :=
  0x20 <= a <= 0x27 \/ 0x38 <= a <= 0x3F.

(** A latch or snapshot byte with one pin's bit set to [high], as
    [writePin] and the simulator setters compute it. *)
Definition with_pin (l : Z) (p : Pin) (high : bool) : Z :=
  if high then l .| (1 .<< pinValue p) else l .& .~ (1 .<< pinValue p).

(** * Facts *)

(** ** The bitwise operators *)

Section BitFacts.

Lemma toInt32_small z : - 2 ^ 31 <= z < 2 ^ 31 -> JS.toInt32 z = z.
Proof.
  intros H. unfold JS.toInt32.
  rewrite Z.mod_small; lia.
Qed.

Lemma toInt32_byte z : byte z -> JS.toInt32 z = z.
Proof. unfold byte. intros H. apply toInt32_small. lia. Qed.

Lemma toInt32_mod z : JS.toInt32 z mod 2 ^ 32 = z mod 2 ^ 32.
Proof.
  unfold JS.toInt32.
  rewrite Zminus_mod_idemp_l. f_equal. lia.
Qed.

(** The low 32 bits survive the coercion. *)
Lemma toInt32_testbit z i :
  0 <= i < 32 -> Z.testbit (JS.toInt32 z) i = Z.testbit z i.
Proof.
  intros H.
  rewrite <- (Z.mod_pow2_bits_low (JS.toInt32 z) 32 i) by lia.
  rewrite toInt32_mod. apply Z.mod_pow2_bits_low. lia.
Qed.

Lemma band_testbit a b i :
  0 <= i < 32 -> Z.testbit (a .& b) i = Z.testbit a i && Z.testbit b i.
Proof.
  intros H. unfold JS.band.
  now rewrite Z.land_spec, !toInt32_testbit.
Qed.

Lemma bor_testbit a b i :
  0 <= i < 32 -> Z.testbit (a .| b) i = Z.testbit a i || Z.testbit b i.
Proof.
  intros H. unfold JS.bor.
  now rewrite Z.lor_spec, !toInt32_testbit.
Qed.

Lemma bnot_testbit a i :
  0 <= i < 32 -> Z.testbit (.~ a) i = negb (Z.testbit a i).
Proof.
  intros H. unfold JS.bnot.
  rewrite Z.lnot_spec by lia. now rewrite toInt32_testbit.
Qed.

Lemma pin_range p : 0 <= pinValue p < 8.
Proof. destruct p; simpl; lia. Qed.

(** [1 << pin] is the one-bit mask of the pin. *)
Lemma mask_pow2 p : 1 .<< pinValue p = 2 ^ pinValue p.
Proof. now destruct p. Qed.

Lemma mask_byte p : byte (1 .<< pinValue p).
Proof. destruct p; unfold byte; cbn; lia. Qed.

Lemma mask_testbit p i :
  Z.testbit (1 .<< pinValue p) i = (i =? pinValue p).
Proof.
  rewrite mask_pow2. pose proof (pin_range p).
  destruct (Z.eqb_spec i (pinValue p)) as [->|Hne].
  - apply Z.pow2_bits_true. lia.
  - apply Z.pow2_bits_false. congruence.
Qed.

(** Characterisations of the bytes. *)
Lemma byte_land z : byte z <-> Z.land z 255 = z.
Proof.
  change 255 with (Z.ones 8). rewrite Z.land_ones by lia.
  unfold byte. split; intros H.
  - apply Z.mod_small. lia.
  - rewrite <- H. pose proof (Z.mod_pos_bound z (2 ^ 8)). lia.
Qed.

Lemma byte_testbit_high z i : byte z -> 8 <= i -> Z.testbit z i = false.
Proof.
  intros Hz Hi. apply byte_land in Hz. rewrite <- Hz.
  rewrite Z.land_spec. change 255 with (Z.ones 8).
  rewrite (Z.ones_spec_high 8 i) by lia. apply andb_false_r.
Qed.

Lemma land_byte_l a b : byte a -> byte (Z.land a b).
Proof.
  rewrite !byte_land. intros H.
  rewrite <- Z.land_assoc, (Z.land_comm b), Z.land_assoc. now rewrite H.
Qed.

Lemma land_byte_r a b : byte b -> byte (Z.land a b).
Proof. rewrite Z.land_comm. apply land_byte_l. Qed.

Lemma lor_byte a b : byte a -> byte b -> byte (Z.lor a b).
Proof.
  rewrite !byte_land. intros Ha Hb.
  rewrite Z.land_lor_distr_l. now rewrite Ha, Hb.
Qed.

Lemma band_byte_l a b : byte a -> byte (a .& b).
Proof.
  intros H. unfold JS.band. rewrite (toInt32_byte a H).
  now apply land_byte_l.
Qed.

Lemma band_byte_r a b : byte b -> byte (a .& b).
Proof.
  intros H. unfold JS.band. rewrite (toInt32_byte b H).
  now apply land_byte_r.
Qed.

Lemma bor_byte a b : byte a -> byte b -> byte (a .| b).
Proof.
  intros Ha Hb. unfold JS.bor.
  rewrite (toInt32_byte a Ha), (toInt32_byte b Hb). now apply lor_byte.
Qed.

Lemma byte_255 : byte 255.
Proof. unfold byte. lia. Qed.

(** On bytes the operators are those of [Z]. *)
Lemma band_bytes a b : byte a -> byte b -> a .& b = Z.land a b.
Proof.
  intros Ha Hb. unfold JS.band. now rewrite !toInt32_byte.
Qed.

Lemma bor_bytes a b : byte a -> byte b -> a .| b = Z.lor a b.
Proof.
  intros Ha Hb. unfold JS.bor. now rewrite !toInt32_byte.
Qed.

Lemma band_255 a : byte a -> a .& 0xFF = a.
Proof.
  intros H. rewrite band_bytes by (auto using byte_255).
  now apply byte_land.
Qed.

Lemma band_0_l a : 0 .& a = 0.
Proof. reflexivity. Qed.

(** Testing a value against a pin's mask reads the pin's bit. *)
Lemma land_pow2 a n :
  0 <= n -> Z.land a (2 ^ n) = if Z.testbit a n then 2 ^ n else 0.
Proof.
  intros Hn. apply Z.bits_inj'. intros i Hi.
  rewrite Z.land_spec.
  destruct (Z.eq_dec i n) as [->|Hne].
  - rewrite Z.pow2_bits_true by lia.
    destruct (Z.testbit a n); simpl.
    + symmetry. apply Z.pow2_bits_true. lia.
    + symmetry. apply Z.bits_0.
  - rewrite (Z.pow2_bits_false n i) by congruence.
    rewrite andb_false_r.
    destruct (Z.testbit a n).
    + symmetry. apply Z.pow2_bits_false. congruence.
    + symmetry. apply Z.bits_0.
Qed.

Lemma band_mask_eq0 a p :
  JS.eq (a .& (1 .<< pinValue p)) 0 = negb (Z.testbit a (pinValue p)).
Proof.
  pose proof (pin_range p) as Hp.
  unfold JS.eq, JS.band.
  rewrite (toInt32_byte _ (mask_byte p)), mask_pow2.
  rewrite land_pow2 by lia.
  rewrite toInt32_testbit by lia.
  destruct (Z.testbit a (pinValue p)); simpl.
  - apply Z.eqb_neq. apply Z.pow_nonzero; lia.
  - reflexivity.
Qed.

Lemma band_mask_neq0 a p :
  JS.neq (a .& (1 .<< pinValue p)) 0 = Z.testbit a (pinValue p).
Proof.
  change (JS.neq ?x ?y) with (negb (JS.eq x y)).
  rewrite band_mask_eq0. apply negb_involutive.
Qed.

(** Setting and clearing one pin of a byte. *)
Lemma set_pin_byte a p : byte a -> byte (a .| (1 .<< pinValue p)).
Proof. intros H. apply bor_byte; auto using mask_byte. Qed.

Lemma clear_pin_byte a p : byte a -> byte (a .& .~ (1 .<< pinValue p)).
Proof. intros H. now apply band_byte_l. Qed.

Lemma set_pin_testbit a p i :
  0 <= i < 32 ->
  Z.testbit (a .| (1 .<< pinValue p)) i
  = if i =? pinValue p then true else Z.testbit a i.
Proof.
  intros H. rewrite bor_testbit, mask_testbit by lia.
  destruct (i =? pinValue p); auto using orb_true_r, orb_false_r.
Qed.

Lemma clear_pin_testbit a p i :
  0 <= i < 32 ->
  Z.testbit (a .& .~ (1 .<< pinValue p)) i
  = if i =? pinValue p then false else Z.testbit a i.
Proof.
  intros H. rewrite band_testbit, bnot_testbit, mask_testbit by lia.
  destruct (i =? pinValue p); simpl; auto using andb_true_r, andb_false_r.
Qed.

End BitFacts.

(** ** Running methods *)

Arguments JS.band : simpl never.
Arguments JS.bor : simpl never.
Arguments JS.bnot : simpl never.
Arguments JS.shl : simpl never.
Arguments JS.eq : simpl never.
Arguments JS.neq : simpl never.
Arguments Z.modulo : simpl never.
Arguments byte : simpl never.

Section MethodFacts.

Context {D : Type}.

Lemma bind_assoc {A B C} (m : M D A) (f : A -> M D B) (g : B -> M D C) d b :
  ((x <- (y <- m ;; f y) ;; g x) d b) = ((y <- m ;; x <- f y ;; g x) d b).
Proof.
  unfold bind.
  destruct (m d b) as [a d1 b1 t1]. destruct (f a d1 b1) as [x d2 b2 t2].
  destruct (g x d2 b2) as [y d3 b3 t3]. now rewrite app_assoc.
Qed.

Lemma bind_ret_l {A B} (a : A) (k : A -> M D B) d b :
  (x <- ret a ;; k x) d b = k a d b.
Proof. unfold bind, ret. now destruct (k a d b). Qed.

(** [bind] in terms of the two outcomes. *)
Lemma bind_out {A B} (m : M D A) (k : A -> M D B) d b :
  (x <- m ;; k x) d b =
  let o1 := m d b in
  let o2 := k (result o1) (device o1) (wire o1) in
  mkOut (result o2) (device o2) (wire o2) (emitted o1 ++ emitted o2).
Proof.
  unfold bind. destruct (m d b) as [a d1 b1 t1]. simpl.
  now destruct (k a d1 b1).
Qed.

Lemma count_app f (s t : list Event) : count f (s ++ t) = (count f s + count f t)%nat.
Proof. unfold count. now rewrite filter_app, length_app. Qed.

End MethodFacts.

(** Unfold a method down to the fields, the bus and the events. *)
Ltac unfold_hw :=
  unfold Hw.exec, Hw.setInput, Hw.setOutputLow, Hw.led, Hw.buttonPressed,
    Hw.writePin, Hw.readPin, Hw.writePort, Hw.readPort, Hw.ensureInit,
    Hw.begin, Hw.writeByte, Hw.set_latch, Hw.set_initialized.

Ltac unfold_sim :=
  unfold Sim.exec, Sim.setSimPinLow, Sim.setSimPinHigh, Sim.setInput,
    Sim.setOutputLow, Sim.led, Sim.buttonPressed, Sim.writePin, Sim.readPin,
    Sim.writePort, Sim.readPort, Sim.ensureInit, Sim.begin, Sim.writeByte,
    Sim.set_latch, Sim.set_initialized, Sim.set_simPort.

Ltac unfold_host :=
  unfold pause, i2cReadNumber, i2cWriteNumber, when, bind, ret, this, assign,
    emit, defaulted.

Ltac run := unfold_hw; unfold_sim; unfold_host; cbn.

(** ** The simulator-safe [Device]: what each step does *)

Section SimSteps.

Import Sim.

Lemma sim_begin_spec d b :
  begin d b =
  mkOut tt
    (mkDevice (addr d) (latch d) true (sim d)
              (if sim d then latch d .& 0xFF else simPort d))
    b
    (CallBegin :: if sim d then [] else [I2CWrite (addr d) (latch d .& 0xFF)]).
Proof. destruct d as [a l i s sp]. run. now destruct s. Qed.

Lemma sim_ensureInit_ready d b :
  initialized d = true -> ensureInit d b = mkOut tt d b [].
Proof. intros H. run. now rewrite H. Qed.

Lemma sim_ensureInit_fresh d b :
  initialized d = false -> ensureInit d b = begin d b.
Proof.
  intros H. destruct d as [a l i s sp]. simpl in H. subst i.
  run. now destruct s.
Qed.

Lemma sim_readPort_ready d b :
  initialized d = true ->
  readPort d b =
  if sim d then mkOut ((simPort d .& latch d) .| 0) d b []
  else
    let v := oracle b (cursor b) mod 256 in
    mkOut (v .& 0xFF) d (mkBus (oracle b) (S (cursor b))) [I2CRead (addr d) v].
Proof.
  intros H. destruct d as [a l i s sp]. simpl in H. subst i.
  run. now destruct s.
Qed.

End SimSteps.

(** ** Well-formedness is kept by every call *)

Create HintDb bytes.
#[local] Hint Resolve byte_255 mask_byte band_byte_l band_byte_r bor_byte
  set_pin_byte clear_pin_byte : bytes.

Ltac split_ifs :=
  repeat match goal with
         | |- context [if ?c then _ else _] => destruct c eqn:?; cbn
         end.

Ltac wf_goal :=
  unfold sim_wf; cbn;
  repeat match goal with |- _ /\ _ => split end;
  try (intros; discriminate); try reflexivity; auto 6 with bytes.

Section SimWf.

Import Sim.

Lemma sim_wf_create host address d :
  create host address = Normal d -> sim_wf d.
Proof.
  unfold create, constructor.
  destruct (isSimulator host) as [s|e]; simpl; [|discriminate].
  intros [= <-]. wf_goal.
Qed.

Lemma sim_wf_begin d b : sim_wf d -> sim_wf (device (begin d b)).
Proof.
  rewrite sim_begin_spec. destruct d as [a l i s sp].
  intros (Hl & Hs & Hi). simpl in *.
  destruct s; wf_goal.
Qed.

Lemma sim_wf_exec c d b : sim_wf d -> sim_wf (device (exec c d b)).
Proof.
  destruct d as [a l i s sp]. intros (Hl & Hs & Hi). simpl in *.
  destruct i; [clear Hi | specialize (Hi eq_refl); subst l];
    destruct c, s; run; split_ifs; wf_goal.
Qed.

Lemma reachable_wf d : reachable d -> sim_wf d.
Proof.
  induction 1 as [host address d Hd | d b _ IH | c d b _ IH].
  - eapply sim_wf_create; eassumption.
  - now apply sim_wf_begin.
  - now apply sim_wf_exec.
Qed.

End SimWf.

(** * The port read of the mock latch *)

(** C1. On an initialized simulator-safe [Device] in mock mode, with an
    8-bit latch and an 8-bit input snapshot [simPort], [readPort()]
    returns the bitwise AND of the snapshot and the latch: a bit whose
    latch bit is 1 reads the snapshot's bit, a bit whose latch bit is 0
    reads 0.  The read changes no field and reaches no bus. *)
Theorem C1_readPort_mock_and (d : Sim.Device) (b : Bus) :
  Sim.initialized d = true ->
  Sim.sim d = true ->
  byte (Sim.latch d) ->
  byte (Sim.simPort d) ->
  let o := Sim.readPort d b in
  result o = Z.land (Sim.simPort d) (Sim.latch d) /\
  (forall i, Z.testbit (result o) i =
             if Z.testbit (Sim.latch d) i then Z.testbit (Sim.simPort d) i
             else false) /\
  device o = d /\ emitted o = [].
Proof.
  intros Hinit Hsim Hl Hs o. subst o.
  rewrite sim_readPort_ready, Hsim by assumption. simpl.
  assert (E : (Sim.simPort d .& Sim.latch d) .| 0
              = Z.land (Sim.simPort d) (Sim.latch d)).
  { rewrite (band_bytes _ _ Hs Hl).
    rewrite bor_bytes.
    - apply Z.lor_0_r.
    - now apply land_byte_l.
    - unfold byte; lia. }
  rewrite E. repeat split.
  intros i. rewrite Z.land_spec.
  destruct (Z.testbit (Sim.latch d) i); auto using andb_true_r, andb_false_r.
Qed.

Lemma C1_readPort_mock_and_witness :
  let d := Sim.mkDevice 0x20 0x0F true true 0xAA in
  let b := mkBus (fun _ => 0) 0 in
  (Sim.initialized d = true /\ Sim.sim d = true /\
   byte (Sim.latch d) /\ byte (Sim.simPort d)) /\
  result (Sim.readPort d b) = Z.land 0xAA 0x0F.
Proof.
  intros d b.
  assert (Hl : byte (Sim.latch d)) by (unfold byte; simpl; lia).
  assert (Hs : byte (Sim.simPort d)) by (unfold byte; simpl; lia).
  split.
  - split; [reflexivity | split; [reflexivity | split; assumption]].
  - exact (proj1 (C1_readPort_mock_and d b eq_refl eq_refl Hl Hs)).
Defined.

(** * The transport selector *)

(** C9. [isSimulator()] never propagates a failure: whatever the host
    query does (return any string, or throw because it is missing or
    fails), the function returns a boolean; the boolean is [true] exactly
    when the host returned ["sim"], and it is [false] whenever the query
    threw. *)
Theorem C9_isSimulator_total (host : Outcome string) :
  exists s : bool,
    Sim.isSimulator host = Normal s /\
    (s = true <-> host = Normal "sim"%string) /\
    (forall e, host = Throw e -> s = false).
Proof.
  destruct host as [v|e]; unfold Sim.isSimulator; simpl.
  - exists (String.eqb v "sim"). split; [reflexivity|]. split.
    + rewrite String.eqb_eq. split; [now intros ->|now intros [= ->]].
    + discriminate.
  - exists false. split; [reflexivity|]. split.
    + split; discriminate.
    + reflexivity.
Qed.

(** * Writing one pin *)

Section WritePin.

Lemma sim_writePin_ready p high d b :
  Sim.initialized d = true ->
  Sim.writePin p high d b =
  let l := if high then Sim.latch d .| (1 .<< pinValue p)
           else Sim.latch d .& .~ (1 .<< pinValue p) in
  mkOut tt (Sim.set_latch l d) b
        (if Sim.sim d then [] else [I2CWrite (Sim.addr d) (l .& 0xFF)]).
Proof.
  intros H. destruct d as [a l i s sp]. simpl in H. subst i.
  now destruct high, s.
Qed.

Lemma hw_writePin_ready p high d b :
  Hw.initialized d = true ->
  Hw.writePin p high d b =
  let l := if high then Hw.latch d .| (1 .<< pinValue p)
           else Hw.latch d .& .~ (1 .<< pinValue p) in
  mkOut tt (Hw.set_latch l d) b [I2CWrite (Hw.addr d) (l .& 0xFF)].
Proof.
  intros H. destruct d as [a l i]. simpl in H. subst i.
  now destruct high.
Qed.

(** One pin of a byte set to [high], bit by bit. *)
Lemma update_pin_bits l p (high : bool) i :
  byte l ->
  Z.testbit (if high then l .| (1 .<< pinValue p)
             else l .& .~ (1 .<< pinValue p)) i
  = if i =? pinValue p then high else Z.testbit l i.
Proof.
  intros Hl. pose proof (pin_range p) as Hp.
  assert (Hb : byte (if high then l .| (1 .<< pinValue p)
                     else l .& .~ (1 .<< pinValue p)))
    by (destruct high; auto with bytes).
  destruct (Z.ltb_spec i 0) as [Hneg|Hpos].
  - rewrite !Z.testbit_neg_r by assumption.
    destruct (Z.eqb_spec i (pinValue p)); [lia|reflexivity].
  - destruct (Z.ltb_spec i 32) as [Hlow|Hhigh].
    + destruct high;
        [rewrite set_pin_testbit by lia | rewrite clear_pin_testbit by lia];
        reflexivity.
    + rewrite (byte_testbit_high _ i Hb), (byte_testbit_high l i Hl) by lia.
      destruct (Z.eqb_spec i (pinValue p)); [lia|reflexivity].
Qed.

End WritePin.

(** C10. On an initialized [Device] (either class) with an 8-bit latch,
    [writePin(p, b)] sets bit [p] of the latch to [b] and leaves every
    other bit of the latch, the input snapshot, the address, the
    [initialized] flag and the transport mode as they were. *)
Theorem C10_writePin_frame (p : Pin) (high : bool) :
  (forall d b,
      Sim.initialized d = true -> byte (Sim.latch d) ->
      let d' := device (Sim.writePin p high d b) in
      (forall i, Z.testbit (Sim.latch d') i =
                 if i =? pinValue p then high else Z.testbit (Sim.latch d) i) /\
      byte (Sim.latch d') /\
      Sim.simPort d' = Sim.simPort d /\ Sim.addr d' = Sim.addr d /\
      Sim.initialized d' = Sim.initialized d /\ Sim.sim d' = Sim.sim d) /\
  (forall d b,
      Hw.initialized d = true -> byte (Hw.latch d) ->
      let d' := device (Hw.writePin p high d b) in
      (forall i, Z.testbit (Hw.latch d') i =
                 if i =? pinValue p then high else Z.testbit (Hw.latch d) i) /\
      byte (Hw.latch d') /\
      Hw.addr d' = Hw.addr d /\ Hw.initialized d' = Hw.initialized d).
Proof.
  split; intros d b Hinit Hl d'; subst d'.
  - rewrite sim_writePin_ready by assumption. simpl.
    split; [intros i; now apply update_pin_bits|].
    split; [destruct high; auto with bytes|]. now repeat split.
  - rewrite hw_writePin_ready by assumption. simpl.
    split; [intros i; now apply update_pin_bits|].
    split; [destruct high; auto with bytes|]. now repeat split.
Qed.

Lemma C10_writePin_frame_witness :
  let b := mkBus (fun _ => 0) 0 in
  let d := Sim.mkDevice 0x20 0xFF true true 0xFF in
  let h := Hw.mkDevice 0x20 0xFF true in
  (Sim.initialized d = true /\ byte (Sim.latch d) /\
   Hw.initialized h = true /\ byte (Hw.latch h)) /\
  Z.testbit (Sim.latch (device (Sim.writePin P3 false d b))) 3 = false /\
  Z.testbit (Sim.latch (device (Sim.writePin P3 false d b))) 4 = true /\
  Z.testbit (Hw.latch (device (Hw.writePin P3 false h b))) 3 = false /\
  Z.testbit (Hw.latch (device (Hw.writePin P3 false h b))) 4 = true.
Proof.
  intros b d h.
  assert (Hd : byte (Sim.latch d)) by (unfold byte; simpl; lia).
  assert (Hh : byte (Hw.latch h)) by (unfold byte; simpl; lia).
  split.
  - split; [reflexivity | split; [assumption | split; [reflexivity | assumption]]].
  - destruct (C10_writePin_frame P3 false) as [Fs Fh].
    destruct (Fs d b eq_refl Hd) as (Bs & _).
    destruct (Fh h b eq_refl Hh) as (Bh & _).
    rewrite (Bs 3), (Bs 4), (Bh 3), (Bh 4). repeat split.
Defined.

(** * Lazy initialization *)

Section Lazy.

Lemma hw_begin_spec d b :
  Hw.begin d b =
  mkOut tt (Hw.mkDevice (Hw.addr d) (Hw.latch d) true) b
        [CallBegin; I2CWrite (Hw.addr d) (Hw.latch d .& 0xFF)].
Proof. now destruct d. Qed.

Lemma hw_ensureInit_ready d b :
  Hw.initialized d = true -> Hw.ensureInit d b = mkOut tt d b [].
Proof. intros H. run. now rewrite H. Qed.

Lemma hw_ensureInit_fresh d b :
  Hw.initialized d = false -> Hw.ensureInit d b = Hw.begin d b.
Proof.
  intros H. destruct d as [a l i]. simpl in H. now subst i.
Qed.

(** A method that starts with [ensureInit()] runs [begin] first on an
    object that is not initialized, and the method's own [ensureInit]
    then finds the flag set. *)
Lemma hw_lazy_bind {A} (rest : M Hw.Device A) d b :
  Hw.initialized d = false ->
  (Hw.ensureInit ;; rest) d b = (Hw.begin ;; Hw.ensureInit ;; rest) d b.
Proof.
  intros H. repeat (rewrite bind_out; cbv beta zeta).
  rewrite hw_ensureInit_fresh by assumption.
  rewrite (hw_ensureInit_ready (device (Hw.begin d b)))
    by now rewrite hw_begin_spec.
  reflexivity.
Qed.

Lemma sim_lazy_bind {A} (rest : M Sim.Device A) d b :
  Sim.initialized d = false ->
  (Sim.ensureInit ;; rest) d b = (Sim.begin ;; Sim.ensureInit ;; rest) d b.
Proof.
  intros H. repeat (rewrite bind_out; cbv beta zeta).
  rewrite sim_ensureInit_fresh by assumption.
  rewrite (sim_ensureInit_ready (device (Sim.begin d b)))
    by now rewrite sim_begin_spec.
  reflexivity.
Qed.

End Lazy.

(** * Reading one pin *)

Section ReadPin.

Lemma testbit_255_pin p : Z.testbit 255 (pinValue p) = true.
Proof. now destruct p. Qed.

(** What the comparison at the end of [readPin] computes. *)
Lemma pin_of_bus_byte v p :
  JS.neq ((v .& 0xFF) .& (1 .<< pinValue p)) 0 = Z.testbit v (pinValue p).
Proof.
  pose proof (pin_range p).
  rewrite band_mask_neq0, band_testbit by lia.
  rewrite testbit_255_pin. apply andb_true_r.
Qed.

Lemma pin_of_mock_port sp l p :
  Z.testbit l (pinValue p) = true ->
  JS.neq (((sp .& l) .| 0) .& (1 .<< pinValue p)) 0
  = Z.testbit sp (pinValue p).
Proof.
  intros Hl. pose proof (pin_range p).
  rewrite band_mask_neq0, bor_testbit, band_testbit by lia.
  rewrite Hl, Z.bits_0. now rewrite andb_true_r, orb_false_r.
Qed.

Lemma set_pin_bit l p : Z.testbit (l .| (1 .<< pinValue p)) (pinValue p) = true.
Proof.
  pose proof (pin_range p).
  rewrite set_pin_testbit by lia. now rewrite Z.eqb_refl.
Qed.

(** [readPin] of the simulator-safe class on an initialized object. *)
Lemma sim_readPin_ready p d b :
  Sim.initialized d = true ->
  Sim.readPin p d b =
  let low := negb (Z.testbit (Sim.latch d) (pinValue p)) in
  let d' := if low then Sim.set_latch (Sim.latch d .| (1 .<< pinValue p)) d
            else d in
  if Sim.sim d then
    mkOut (Z.testbit (Sim.simPort d) (pinValue p)) d' b []
  else
    let v := oracle b (cursor b) mod 256 in
    mkOut (Z.testbit v (pinValue p)) d' (mkBus (oracle b) (S (cursor b)))
          ((if low then [I2CWrite (Sim.addr d) (Sim.latch d' .& 0xFF)] else [])
             ++ [I2CRead (Sim.addr d) v]).
Proof.
  intros H. destruct d as [a l i s sp]. simpl in H. subst i.
  run. rewrite band_mask_eq0.
  destruct (Z.testbit l (pinValue p)) eqn:Hbit, s; cbn;
    rewrite ?pin_of_bus_byte, ?pin_of_mock_port;
    auto using set_pin_bit.
Qed.

(** [readPin] of the hardware-only class on an initialized object: the
    latch is pushed every time. *)
Lemma hw_readPin_ready p d b :
  Hw.initialized d = true ->
  Hw.readPin p d b =
  let d' := Hw.set_latch (Hw.latch d .| (1 .<< pinValue p)) d in
  let v := oracle b (cursor b) mod 256 in
  mkOut (Z.testbit v (pinValue p)) d' (mkBus (oracle b) (S (cursor b)))
        [I2CWrite (Hw.addr d) (Hw.latch d' .& 0xFF); I2CRead (Hw.addr d) v].
Proof.
  intros H. destruct d as [a l i]. simpl in H. subst i.
  run. now rewrite pin_of_bus_byte.
Qed.

Lemma sim_readPin_lazy p d b :
  Sim.initialized d = false ->
  Sim.readPin p d b = (Sim.begin ;; Sim.readPin p) d b.
Proof. apply sim_lazy_bind. Qed.

Lemma hw_readPin_lazy p d b :
  Hw.initialized d = false ->
  Hw.readPin p d b = (Hw.begin ;; Hw.readPin p) d b.
Proof. apply hw_lazy_bind. Qed.

End ReadPin.

Section ReadPinPost.

(** After [readPin(p)] on an initialized object: the latch bit is set,
    and the result is the pin's bit of the port as read. *)
Lemma sim_readPin_post_ready p d b :
  Sim.initialized d = true ->
  let o := Sim.readPin p d b in
  Z.testbit (Sim.latch (device o)) (pinValue p) = true /\
  Sim.sim (device o) = Sim.sim d /\
  Sim.simPort (device o) = Sim.simPort d /\
  Sim.initialized (device o) = true /\
  result o = if Sim.sim d then Z.testbit (Sim.simPort d) (pinValue p)
             else Z.testbit (oracle b (cursor b) mod 256) (pinValue p).
Proof.
  intros H o. subst o. rewrite sim_readPin_ready by assumption.
  destruct d as [a l i s sp]. simpl in *.
  destruct (Z.testbit l (pinValue p)) eqn:Hbit, s; simpl;
    auto 6 using set_pin_bit.
Qed.

Lemma sim_readPin_post p d b :
  let o := Sim.readPin p d b in
  Z.testbit (Sim.latch (device o)) (pinValue p) = true /\
  Sim.sim (device o) = Sim.sim d /\
  Sim.initialized (device o) = true /\
  result o = if Sim.sim d then Z.testbit (Sim.simPort (device o)) (pinValue p)
             else Z.testbit (oracle b (cursor b) mod 256) (pinValue p).
Proof.
  intros o. subst o. destruct (Sim.initialized d) eqn:Hinit.
  - destruct (sim_readPin_post_ready p d b Hinit) as (H1 & H2 & H3 & H4 & H5).
    rewrite H3. auto.
  - rewrite sim_readPin_lazy by assumption.
    rewrite bind_out. cbv beta zeta. cbn [device wire result emitted].
    set (d0 := device (Sim.begin d b)).
    assert (Hd0 : Sim.initialized d0 = true)
      by (subst d0; now rewrite sim_begin_spec).
    assert (Hs0 : Sim.sim d0 = Sim.sim d)
      by (subst d0; now rewrite sim_begin_spec).
    assert (Hw0 : wire (Sim.begin d b) = b) by now rewrite sim_begin_spec.
    rewrite Hw0.
    destruct (sim_readPin_post_ready p d0 b Hd0) as (H1 & H2 & H3 & H4 & H5).
    rewrite H3, <- Hs0. rewrite H2. auto.
Qed.

Lemma hw_readPin_post p d b :
  let o := Hw.readPin p d b in
  Z.testbit (Hw.latch (device o)) (pinValue p) = true /\
  Hw.initialized (device o) = true /\
  result o = Z.testbit (oracle b (cursor b) mod 256) (pinValue p).
Proof.
  intros o. subst o. destruct (Hw.initialized d) eqn:Hinit.
  - rewrite hw_readPin_ready by assumption. simpl.
    auto using set_pin_bit.
  - rewrite hw_readPin_lazy by assumption.
    rewrite bind_out. cbv beta zeta.
    rewrite hw_begin_spec. cbn [device wire result emitted].
    rewrite hw_readPin_ready by reflexivity.
    simpl. auto using set_pin_bit.
Qed.

End ReadPinPost.

(** C4. For every pin [p] and every state of a [Device] of either class
    (whatever the latch, initialized or not, mock or hardware), when
    [readPin(p)] returns, bit [p] of the latch is 1.  The boolean returned
    is bit [p] of the port as observed: in mock mode the bit of the input
    snapshot, which is also bit [p] of what [readPort()] gives in the
    state reached; in hardware mode the bit of the byte the chip answered.
    The device's own earlier low drive on the pin never decides it. *)
Theorem C4_readPin_releases_pin (p : Pin) :
  (forall d b,
      let o := Sim.readPin p d b in
      Z.testbit (Sim.latch (device o)) (pinValue p) = true /\
      result o =
        (if Sim.sim d then Z.testbit (Sim.simPort (device o)) (pinValue p)
         else Z.testbit (oracle b (cursor b) mod 256) (pinValue p)) /\
      (Sim.sim d = true ->
       result o =
         Z.testbit (result (Sim.readPort (device o) (wire o))) (pinValue p))) /\
  (forall d b,
      let o := Hw.readPin p d b in
      Z.testbit (Hw.latch (device o)) (pinValue p) = true /\
      result o = Z.testbit (oracle b (cursor b) mod 256) (pinValue p)).
Proof.
  split; intros d b o; subst o.
  - destruct (sim_readPin_post p d b) as (Hbit & Hsim & Hinit & Hres).
    split; [assumption|]. split; [assumption|].
    intros Hmock. rewrite Hres, Hmock.
    rewrite sim_readPort_ready by assumption.
    rewrite Hsim, Hmock. simpl.
    pose proof (pin_range p).
    rewrite bor_testbit, band_testbit by lia.
    rewrite Hbit, Z.bits_0. now rewrite andb_true_r, orb_false_r.
  - destruct (hw_readPin_post p d b) as (Hbit & _ & Hres). auto.
Qed.

Lemma C4_readPin_releases_pin_witness :
  let d := Sim.mkDevice 0x20 0xFE true true 0xFF in
  let b := mkBus (fun _ => 0) 0 in
  Sim.sim d = true /\
  result (Sim.readPin P0 d b) =
    Z.testbit (result (Sim.readPort (device (Sim.readPin P0 d b))
                                    (wire (Sim.readPin P0 d b)))) 0.
Proof.
  intros d b. split.
  - reflexivity.
  - exact (proj2 (proj2 (proj1 (C4_readPin_releases_pin P0) d b)) eq_refl).
Defined.

(** C7 (as the code has it). For every pin [p] and initialized object:
    - simulator-safe class: [readPin(p)] changes the latch only when bit
      [p] is 0, setting that bit, and only then, and only in hardware
      mode, writes the new latch to the bus before the port read; when
      bit [p] is already 1 no field changes and nothing is written; in
      mock mode [readPin] emits nothing at all;
    - hardware-only class of [main.ts]: [readPin(p)] sets bit [p] and
      writes the latch to the bus before the port read every time,
      whether or not the bit was already 1. *)
Theorem C7_readPin_push (p : Pin) (d : Sim.Device) (h : Hw.Device) (b : Bus) :
  Sim.initialized d = true ->
  Hw.initialized h = true ->
  let mask := 1 .<< pinValue p in
  let v := oracle b (cursor b) mod 256 in
  (let o := Sim.readPin p d b in
   let low := negb (Z.testbit (Sim.latch d) (pinValue p)) in
   device o = (if low then Sim.set_latch (Sim.latch d .| mask) d else d) /\
   emitted o =
     (if low && negb (Sim.sim d)
      then [I2CWrite (Sim.addr d) ((Sim.latch d .| mask) .& 0xFF)] else [])
       ++ (if Sim.sim d then [] else [I2CRead (Sim.addr d) v]) /\
   (Sim.sim d = true -> emitted o = [])) /\
  push_only_if_driven_low Sim.initialized Sim.latch Sim.readPin /\
  (let o := Hw.readPin p h b in
   device o = Hw.set_latch (Hw.latch h .| mask) h /\
   emitted o = [I2CWrite (Hw.addr h) ((Hw.latch h .| mask) .& 0xFF);
                I2CRead (Hw.addr h) v]).
Proof.
  intros Hd Hh mask v. subst mask v. split; [|split].
  - rewrite sim_readPin_ready by assumption.
    destruct d as [a l i s sp]. simpl.
    destruct (Z.testbit l (pinValue p)), s; simpl; repeat split; discriminate.
  - intros q d' b' Hinit Hbit.
    rewrite sim_readPin_ready by assumption. rewrite Hbit. simpl.
    now destruct (Sim.sim d').
  - rewrite hw_readPin_ready by assumption. now destruct h.
Qed.

Lemma C7_readPin_push_witness :
  let d := Sim.mkDevice 0x20 0xFE true false 0xFF in
  let h := Hw.mkDevice 0x20 0xFF true in
  let b := mkBus (fun _ => 0xFE) 0 in
  (Sim.initialized d = true /\ Hw.initialized h = true) /\
  emitted (Sim.readPin P0 d b) = [I2CWrite 0x20 (0xFF .& 0xFF); I2CRead 0x20 0xFE] /\
  emitted (Hw.readPin P0 h b) = [I2CWrite 0x20 (0xFF .& 0xFF); I2CRead 0x20 0xFE].
Proof.
  intros d h b.
  destruct (C7_readPin_push P0 d h b eq_refl eq_refl) as ((_ & Es & _) & _ & (_ & Eh)).
  split; [split; reflexivity|].
  split; [exact Es | exact Eh].
Defined.

(** C7, as stated, fails on the hardware-only class: with the latch at
    0xFF (bit 0 already 1) on an initialized object, [readPin(P0)] still
    writes the latch to the bus before it reads the port. *)
Lemma C7_counterexample_hw_always_pushes :
  let h := Hw.mkDevice 0x20 0xFF true in
  let b := mkBus (fun _ => 0xFF) 0 in
  Hw.initialized h = true /\
  Z.testbit (Hw.latch h) (pinValue P0) = true /\
  emitted (Hw.readPin P0 h b) = [I2CWrite 0x20 0xFF; I2CRead 0x20 0xFF] /\
  ~ push_only_if_driven_low Hw.initialized Hw.latch Hw.readPin.
Proof.
  intros h b. repeat split.
  intros H. specialize (H P0 h b eq_refl eq_refl). discriminate H.
Qed.

(** * The LED helper *)

Section Led.

(** The latch that [writePin] leaves, from any state: [begin], if it
    runs, does not touch the latch. *)
Lemma sim_writePin_latch p high d b :
  Sim.latch (device (Sim.writePin p high d b)) =
  if high then Sim.latch d .| (1 .<< pinValue p)
  else Sim.latch d .& .~ (1 .<< pinValue p).
Proof. destruct d as [a l [] [] sp], high; reflexivity. Qed.

Lemma hw_writePin_latch p high d b :
  Hw.latch (device (Hw.writePin p high d b)) =
  if high then Hw.latch d .| (1 .<< pinValue p)
  else Hw.latch d .& .~ (1 .<< pinValue p).
Proof. destruct d as [a l []], high; reflexivity. Qed.

Lemma update_pin_bit l p (high : bool) :
  Z.testbit (if high then l .| (1 .<< pinValue p)
             else l .& .~ (1 .<< pinValue p)) (pinValue p) = high.
Proof.
  pose proof (pin_range p).
  destruct high;
    [rewrite set_pin_testbit by lia | rewrite clear_pin_testbit by lia];
    now rewrite Z.eqb_refl.
Qed.

Lemma sim_led_bit p on activeLow d b :
  Z.testbit (Sim.latch (device (Sim.led p on activeLow d b))) (pinValue p)
  = led_level on activeLow.
Proof.
  unfold Sim.led. rewrite sim_writePin_latch. apply update_pin_bit.
Qed.

Lemma hw_led_bit p on activeLow d b :
  Z.testbit (Hw.latch (device (Hw.led p on activeLow d b))) (pinValue p)
  = led_level on activeLow.
Proof.
  unfold Hw.led. rewrite hw_writePin_latch. apply update_pin_bit.
Qed.

End Led.

(** C8. For every pin [p] and every object of either class (initialized
    ones included): after [led(p, true)], with [activeLow] left to its
    default [true] or passed as [true], bit [p] of the latch is 0; after
    [led(p, true, false)] it is 1; after [led(p, false)] with
    [activeLow = true] it is 1. *)
Theorem C8_led_latch_bit (p : Pin) :
  (forall d b,
      let bit o := Z.testbit (Sim.latch (device o)) (pinValue p) in
      bit (Sim.led p true None d b) = false /\
      bit (Sim.led p true (Some true) d b) = false /\
      bit (Sim.led p true (Some false) d b) = true /\
      bit (Sim.led p false None d b) = true /\
      bit (Sim.led p false (Some true) d b) = true) /\
  (forall d b,
      let bit o := Z.testbit (Hw.latch (device o)) (pinValue p) in
      bit (Hw.led p true None d b) = false /\
      bit (Hw.led p true (Some true) d b) = false /\
      bit (Hw.led p true (Some false) d b) = true /\
      bit (Hw.led p false None d b) = true /\
      bit (Hw.led p false (Some true) d b) = true).
Proof.
  split; intros d b bit; subst bit; cbv beta.
  - now rewrite !sim_led_bit.
  - now rewrite !hw_led_bit.
Qed.

(** * The button helper *)

Section Button.

(** The control flow of [buttonPressed] around its calls of [readPin]. *)
Lemma sim_buttonPressed_eq p debounceMs d b :
  Sim.buttonPressed p debounceMs d b =
  let ms := defaulted 20 debounceMs in
  let o1 := Sim.readPin p d b in
  if result o1 then mkOut false (device o1) (wire o1) (emitted o1)
  else if 0 <? ms then
    let o2 := Sim.readPin p (device o1) (wire o1) in
    mkOut (negb (result o2)) (device o2) (wire o2)
          (emitted o1 ++ Pause ms :: emitted o2)
  else mkOut true (device o1) (wire o1) (emitted o1).
Proof.
  unfold Sim.buttonPressed. cbv zeta. rewrite bind_out. cbv beta zeta.
  destruct (result (Sim.readPin p d b)); cbn [Bool.eqb].
  - unfold ret. cbn [result device wire emitted]. now rewrite app_nil_r.
  - destruct (0 <? defaulted 20 debounceMs).
    + repeat (rewrite bind_out; cbv beta zeta).
      unfold pause, emit, ret. cbn [result device wire emitted app].
      rewrite app_nil_r.
      now destruct (result (Sim.readPin p _ _)).
    + unfold ret. cbn [result device wire emitted]. now rewrite app_nil_r.
Qed.

Lemma hw_buttonPressed_eq p debounceMs d b :
  Hw.buttonPressed p debounceMs d b =
  let ms := defaulted 20 debounceMs in
  let o1 := Hw.readPin p d b in
  if result o1 then mkOut false (device o1) (wire o1) (emitted o1)
  else if 0 <? ms then
    let o2 := Hw.readPin p (device o1) (wire o1) in
    mkOut (negb (result o2)) (device o2) (wire o2)
          (emitted o1 ++ Pause ms :: emitted o2)
  else mkOut true (device o1) (wire o1) (emitted o1).
Proof.
  unfold Hw.buttonPressed. cbv zeta. rewrite bind_out. cbv beta zeta.
  destruct (result (Hw.readPin p d b)); cbn [Bool.eqb].
  - unfold ret. cbn [result device wire emitted]. now rewrite app_nil_r.
  - destruct (0 <? defaulted 20 debounceMs).
    + repeat (rewrite bind_out; cbv beta zeta).
      unfold pause, emit, ret. cbn [result device wire emitted app].
      rewrite app_nil_r.
      now destruct (result (Hw.readPin p _ _)).
    + unfold ret. cbn [result device wire emitted]. now rewrite app_nil_r.
Qed.

(** [readPin] never suspends. *)
Lemma sim_readPin_no_pause p d b :
  count is_pause (emitted (Sim.readPin p d b)) = 0%nat.
Proof.
  destruct d as [a l [] [] sp]; run; split_ifs; reflexivity.
Qed.

Lemma hw_readPin_no_pause p d b :
  count is_pause (emitted (Hw.readPin p d b)) = 0%nat.
Proof.
  destruct d as [a l []]; run; split_ifs; reflexivity.
Qed.

End Button.

Section Debounce.

Context {D : Type}.
Variable readPin : Pin -> M D bool.
Variable buttonPressed : Pin -> option Z -> M D bool.

Hypothesis buttonPressed_eq : forall p debounceMs d b,
  buttonPressed p debounceMs d b =
  let ms := defaulted 20 debounceMs in
  let o1 := readPin p d b in
  if result o1 then mkOut false (device o1) (wire o1) (emitted o1)
  else if 0 <? ms then
    let o2 := readPin p (device o1) (wire o1) in
    mkOut (negb (result o2)) (device o2) (wire o2)
          (emitted o1 ++ Pause ms :: emitted o2)
  else mkOut true (device o1) (wire o1) (emitted o1).

Hypothesis readPin_no_pause : forall p d b,
  count is_pause (emitted (readPin p d b)) = 0%nat.

Lemma no_pause_filter t : count is_pause t = 0%nat -> filter is_pause t = [].
Proof. unfold count. apply length_zero_iff_nil. Qed.

Lemma debounce_policy_holds p debounceMs d b :
  debounce_policy readPin buttonPressed p debounceMs d b.
Proof.
  unfold debounce_policy. cbv zeta.
  rewrite buttonPressed_eq. cbv zeta.
  split; [|split].
  - intros ->. split; [reflexivity|]. simpl. apply readPin_no_pause.
  - intros -> ->. split; [reflexivity|]. simpl. apply readPin_no_pause.
  - intros -> Hms.
    apply Z.ltb_lt in Hms. rewrite Hms. simpl.
    split; [reflexivity|]. split.
    + rewrite filter_app. simpl.
      now rewrite !no_pause_filter by apply readPin_no_pause.
    + now destruct (result (readPin p _ _)).
Qed.

End Debounce.

(** C6. For every pin [p], every [debounceMs] (20 when omitted) and every
    object of either class, [buttonPressed(p, debounceMs)] first calls
    [readPin(p)].  If that read is high it returns [false] in the state
    the read left, having emitted only the read's events: no pause.  If
    the read is low and [debounceMs] is 0 it returns [true] in the same
    way, with no pause.  If the read is low and [debounceMs > 0] it pauses
    once, for [debounceMs], between the first read and a second
    [readPin(p)], and returns [true] exactly when the second read is low
    too. *)
Theorem C6_buttonPressed_debounce
        (p : Pin) (debounceMs : option Z) (d : Sim.Device) (h : Hw.Device)
        (b : Bus) :
  debounce_policy Sim.readPin Sim.buttonPressed p debounceMs d b /\
  debounce_policy Hw.readPin Hw.buttonPressed p debounceMs h b.
Proof.
  split.
  - exact (debounce_policy_holds Sim.readPin Sim.buttonPressed
             sim_buttonPressed_eq sim_readPin_no_pause p debounceMs d b).
  - exact (debounce_policy_holds Hw.readPin Hw.buttonPressed
             hw_buttonPressed_eq hw_readPin_no_pause p debounceMs h b).
Qed.

Lemma C6_buttonPressed_debounce_witness :
  let h := Hw.mkDevice 0x20 0xFF true in
  let b := mkBus (fun n => if Nat.eqb n 0 then 0xFE else 0xFF) 0 in
  (result (Hw.readPin P0 h b) = false /\ 0 < defaulted 20 (Some 20)) /\
  result (Hw.buttonPressed P0 (Some 20) h b) = false /\
  filter is_pause (emitted (Hw.buttonPressed P0 (Some 20) h b)) = [Pause 20].
Proof.
  intros h b.
  destruct (C6_buttonPressed_debounce P0 (Some 20)
              (Sim.mkDevice 0x20 0xFF true true 0xFF) h b)
    as (_ & _ & _ & Hlow).
  assert (H1 : result (Hw.readPin P0 h b) = false) by reflexivity.
  assert (H2 : 0 < defaulted 20 (Some 20)) by reflexivity.
  destruct (Hlow H1 H2) as (E & F & _).
  split; [split; assumption|].
  split; [rewrite E; reflexivity | exact F].
Defined.

(** * Lazy initialization of the public operations *)

Section LazyInit.

Context {D : Type}.
Variable begin : M D unit.
Variable initialized : D -> bool.

(** Lazy initialization passes from a call to what is sequenced after
    it. *)
Lemma lazy_bind_gen {A B} (m : M D A) (k : A -> M D B) d b :
  m d b = (begin ;; m) d b ->
  (x <- m ;; k x) d b = (begin ;; x <- m ;; k x) d b.
Proof.
  intros H. rewrite (bind_out m k), H.
  repeat (rewrite bind_out; cbv beta zeta).
  cbn [result device wire emitted]. now rewrite app_assoc.
Qed.

Hypothesis begin_marks : forall d b,
  exists t, emitted (begin d b) = CallBegin :: t /\ count is_begin t = 0%nat.
Hypothesis begin_sets : forall d b, initialized (device (begin d b)) = true.

Lemma lazy_init_intro (m : M D unit) :
  (forall d b, initialized d = false -> m d b = (begin ;; m) d b) ->
  (forall d b, initialized d = true ->
               count is_begin (emitted (m d b)) = 0%nat) ->
  lazy_init begin initialized m.
Proof.
  intros Hlazy Hquiet d b Hd. split; [now apply Hlazy|].
  rewrite (Hlazy d b Hd), bind_out. cbv beta zeta.
  cbn [result device wire emitted].
  destruct (begin_marks d b) as (t & -> & Ht).
  split.
  - rewrite count_app. change (count is_begin (CallBegin :: t))
      with (S (count is_begin t)).
    now rewrite Ht, Hquiet by apply begin_sets.
  - reflexivity.
Qed.

End LazyInit.

Section LazyCalls.

Lemma sim_begin_marks d b :
  exists t, emitted (Sim.begin d b) = CallBegin :: t /\
            count is_begin t = 0%nat.
Proof.
  rewrite sim_begin_spec. simpl. eexists. split; [reflexivity|].
  now destruct (Sim.sim d).
Qed.

Lemma hw_begin_marks d b :
  exists t, emitted (Hw.begin d b) = CallBegin :: t /\
            count is_begin t = 0%nat.
Proof. rewrite hw_begin_spec. simpl. eexists. split; reflexivity. Qed.

Lemma sim_begin_sets d b : Sim.initialized (device (Sim.begin d b)) = true.
Proof. now rewrite sim_begin_spec. Qed.

Lemma hw_begin_sets d b : Hw.initialized (device (Hw.begin d b)) = true.
Proof. now rewrite hw_begin_spec. Qed.

Lemma sim_writePin_lazy p high d b :
  Sim.initialized d = false ->
  Sim.writePin p high d b = (Sim.begin ;; Sim.writePin p high) d b.
Proof. apply sim_lazy_bind. Qed.

Lemma hw_writePin_lazy p high d b :
  Hw.initialized d = false ->
  Hw.writePin p high d b = (Hw.begin ;; Hw.writePin p high) d b.
Proof. apply hw_lazy_bind. Qed.

Lemma sim_exec_lazy c d b :
  Sim.lazily_initializing c = true ->
  Sim.initialized d = false ->
  Sim.exec c d b = (Sim.begin ;; Sim.exec c) d b.
Proof.
  intros Hc Hd. destruct c; try discriminate Hc; unfold Sim.exec.
  - apply lazy_bind_gen. now apply sim_lazy_bind.
  - now apply sim_lazy_bind.
  - apply lazy_bind_gen. now apply sim_readPin_lazy.
  - now apply sim_writePin_lazy.
  - apply lazy_bind_gen. unfold Sim.buttonPressed.
    apply lazy_bind_gen. now apply sim_readPin_lazy.
  - now apply sim_writePin_lazy.
  - now apply sim_writePin_lazy.
  - now apply sim_writePin_lazy.
Qed.

Lemma hw_exec_lazy c d b :
  Hw.initialized d = false ->
  Hw.exec c d b = (Hw.begin ;; Hw.exec c) d b.
Proof.
  intros Hd. destruct c; unfold Hw.exec.
  - apply lazy_bind_gen. now apply hw_lazy_bind.
  - now apply hw_lazy_bind.
  - apply lazy_bind_gen. now apply hw_readPin_lazy.
  - now apply hw_writePin_lazy.
  - apply lazy_bind_gen. unfold Hw.buttonPressed.
    apply lazy_bind_gen. now apply hw_readPin_lazy.
  - now apply hw_writePin_lazy.
  - now apply hw_writePin_lazy.
  - now apply hw_writePin_lazy.
Qed.

(** On an initialized object no call enters [begin]. *)
Lemma sim_exec_quiet c d b :
  Sim.initialized d = true ->
  count is_begin (emitted (Sim.exec c d b)) = 0%nat.
Proof.
  intros H. destruct d as [a l i s sp]. simpl in H. subst i.
  destruct c, s; run; split_ifs; reflexivity.
Qed.

Lemma hw_exec_quiet c d b :
  Hw.initialized d = true ->
  count is_begin (emitted (Hw.exec c d b)) = 0%nat.
Proof.
  intros H. destruct d as [a l i]. simpl in H. subst i.
  destruct c; run; split_ifs; reflexivity.
Qed.

End LazyCalls.

(** C3 (as the code has it). For [readPort], [writePort], [readPin],
    [writePin], [buttonPressed], [led], [setInput] and [setOutputLow], in
    both classes: on an object that is not initialized, the call is
    [begin()] followed by the call on the initialized object; [begin] is
    entered exactly once and before anything else is emitted.
    [setSimPinHigh] and [setSimPinLow] do not call [ensureInit]: in
    hardware mode they return at once, with no field changed, no bus
    traffic and no [begin]. *)
Theorem C3_lazy_begin_once :
  (forall c, lazy_init Hw.begin Hw.initialized (Hw.exec c)) /\
  (forall c, Sim.lazily_initializing c = true ->
             lazy_init Sim.begin Sim.initialized (Sim.exec c)) /\
  (forall p d b, Sim.sim d = false ->
                 no_effect (Sim.setSimPinHigh p) d b /\
                 no_effect (Sim.setSimPinLow p) d b).
Proof.
  split; [|split].
  - intros c. apply lazy_init_intro.
    + apply hw_begin_marks.
    + apply hw_begin_sets.
    + intros d b. apply hw_exec_lazy.
    + intros d b. apply hw_exec_quiet.
  - intros c Hc. apply lazy_init_intro.
    + apply sim_begin_marks.
    + apply sim_begin_sets.
    + intros d b. now apply sim_exec_lazy.
    + intros d b. apply sim_exec_quiet.
  - intros p d b Hs. destruct d as [a l i s sp]. simpl in Hs. subst s.
    split; reflexivity.
Qed.

Lemma C3_lazy_begin_once_witness :
  let d := Sim.mkDevice 0x20 0xFF false false 0xFF in
  let b := mkBus (fun _ => 0xFF) 0 in
  (Sim.lazily_initializing (Sim.CwritePort 0x0F) = true /\
   Sim.initialized d = false /\ Sim.sim d = false) /\
  count is_begin (emitted (Sim.exec (Sim.CwritePort 0x0F) d b)) = 1%nat /\
  hd_error (emitted (Sim.exec (Sim.CwritePort 0x0F) d b)) = Some CallBegin /\
  Sim.setSimPinLow P0 d b = mkOut tt d b [].
Proof.
  intros d b.
  destruct C3_lazy_begin_once as (_ & Hsim & Hset).
  destruct (Hsim (Sim.CwritePort 0x0F) eq_refl d b eq_refl) as (_ & Hc & Hh).
  destruct (Hset P0 d b eq_refl) as (_ & Hl).
  split; [repeat split|].
  split; [exact Hc|]. split; [exact Hh | exact Hl].
Defined.

(** C3, as stated, fails for the simulator setters: on a hardware-mode
    object that is not initialized, [setSimPinHigh(P0)] enters no [begin]
    at all. *)
Lemma C3_counterexample_setSimPin_skips_begin :
  let d := Sim.mkDevice 0x20 0xFF false false 0xFF in
  let b := mkBus (fun _ => 0xFF) 0 in
  Sim.initialized d = false /\
  emitted (Sim.exec (Sim.CsetSimPinHigh P0) d b) = [] /\
  Sim.initialized (device (Sim.exec (Sim.CsetSimPinHigh P0) d b)) = false /\
  ~ lazy_init Sim.begin Sim.initialized (Sim.exec (Sim.CsetSimPinHigh P0)).
Proof.
  intros d b. split; [reflexivity|]. split; [reflexivity|].
  split; [reflexivity|].
  intros H. destruct (H d b eq_refl) as (_ & Hc & _). discriminate Hc.
Qed.

(** * Port round trip in mock mode *)

Section RoundTrip.

Lemma bor_0_r a : byte a -> a .| 0 = a.
Proof.
  intros H. rewrite bor_bytes; [apply Z.lor_0_r | assumption |].
  unfold byte. lia.
Qed.

Lemma band_255_l a : byte a -> 0xFF .& a = a.
Proof.
  intros H. rewrite band_bytes by auto using byte_255.
  rewrite Z.land_comm. now apply byte_land.
Qed.

End RoundTrip.

(** C5. For every 8-bit value [v], on a simulator-safe [Device] in mock
    mode that a program can have reached and whose input snapshot is
    0xFF, [writePort(v)] followed by [readPort()] returns exactly [v]. *)
Theorem C5_writePort_readPort_roundtrip (v : Z) (d : Sim.Device) (b : Bus) :
  Sim.reachable d ->
  Sim.sim d = true ->
  Sim.simPort d = 0xFF ->
  byte v ->
  result ((Sim.writePort v ;; Sim.readPort) d b) = v.
Proof.
  intros Hr Hsim Hsp Hv.
  destruct (reachable_wf d Hr) as (Hl & _ & Hi).
  destruct d as [a l i s sp]. simpl in *. subst s sp.
  destruct i; [|rewrite (Hi eq_refl)]; run;
    rewrite band_0_l, ?band_255, ?band_255_l, ?bor_0_r;
    auto using byte_255.
Qed.

Lemma C5_writePort_readPort_roundtrip_witness :
  let d := Sim.mkDevice 0x20 0xFF false true 0xFF in
  let b := mkBus (fun _ => 0) 0 in
  (Sim.reachable d /\ Sim.sim d = true /\ Sim.simPort d = 0xFF /\ byte 0x5A) /\
  result ((Sim.writePort 0x5A ;; Sim.readPort) d b) = 0x5A.
Proof.
  intros d b.
  assert (Hr : Sim.reachable d)
    by exact (Sim.reach_create (Normal "sim"%string) Addr0x20 d eq_refl).
  assert (Hv : byte 0x5A) by (unfold byte; lia).
  split.
  - split; [exact Hr | split; [reflexivity | split; [reflexivity | exact Hv]]].
  - exact (C5_writePort_readPort_roundtrip 0x5A d b Hr eq_refl eq_refl Hv).
Defined.

(** * A simulated press before first use *)

(** C2. On a freshly created simulator-safe [Device] in mock mode,
    [setSimPinLow(P0)] followed by [buttonPressed(P0, 20)] returns
    [false], not [true]: the first [readPin] runs [begin], which copies
    the latch (0xFF) over the input snapshot and so drops the simulated
    press.  [setSimPinHigh(P0)] and [buttonPressed(P0, 20)] after that
    return [false].  With an explicit [begin()] before [setSimPinLow(P0)]
    the same [buttonPressed] returns [true]. *)
Theorem C2_press_before_first_use_is_dropped (address : Address) (b : Bus) :
  match Sim.create (Normal "sim"%string) address with
  | Throw _ => False
  | Normal d =>
      let o1 := (Sim.setSimPinLow P0 ;; Sim.buttonPressed P0 (Some 20)) d b in
      let o2 := (Sim.setSimPinHigh P0 ;; Sim.buttonPressed P0 (Some 20))
                  (device o1) (wire o1) in
      let o3 := (Sim.begin ;; Sim.setSimPinLow P0 ;;
                 Sim.buttonPressed P0 (Some 20)) d b in
      Sim.initialized d = false /\
      Sim.simPort (device (Sim.setSimPinLow P0 d b)) = 0xFE /\
      result o1 = false /\ Sim.simPort (device o1) = 0xFF /\
      result o2 = false /\
      result o3 = true
  end.
Proof. destruct address; repeat split. Qed.

(** * Further properties of the two classes *)

(** ** [writePort] keeps the low eight bits *)

Section WritePort.

Lemma band_255_mod v : v .& 0xFF = v mod 256.
Proof.
  unfold JS.band. rewrite (toInt32_byte 255 byte_255).
  change 255 with (Z.ones 8). change 256 with (2 ^ 8).
  rewrite <- (Z.land_ones v 8) by lia.
  apply Z.bits_inj'. intros i Hi. rewrite !Z.land_spec.
  destruct (Z.ltb_spec i 8).
  - now rewrite toInt32_testbit by lia.
  - rewrite (Z.ones_spec_high 8 i) by lia. now rewrite !andb_false_r.
Qed.

Lemma mod_256_byte v : byte (v mod 256).
Proof. unfold byte. apply Z.mod_pos_bound. lia. Qed.

End WritePort.

(** X1. [writePort(value)] stores [value mod 256] in the latch for every
    integer [value], negative or beyond 32 bits, from any state of either
    class.  The hardware-only class then sends exactly that byte to its
    own address as the last thing it does; the simulator-safe class does
    the same in hardware mode and sends nothing in mock mode. *)
Theorem X1_writePort_masks (v : Z) :
  (forall h b,
      let o := Hw.writePort v h b in
      Hw.latch (device o) = v mod 256 /\
      exists t, emitted o = t ++ [I2CWrite (Hw.addr h) (v mod 256)]) /\
  (forall d b,
      let o := Sim.writePort v d b in
      Sim.latch (device o) = v mod 256 /\
      if Sim.sim d then count is_bus (emitted o) = 0%nat
      else exists t, emitted o = t ++ [I2CWrite (Sim.addr d) (v mod 256)]).
Proof.
  assert (E : (v .& 0xFF) .& 0xFF = v mod 256).
  { rewrite (band_255 (v .& 0xFF)) by auto using band_byte_r, byte_255.
    apply band_255_mod. }
  split.
  - intros [a l []] b; run; rewrite ?E, ?band_255_mod; (split; [reflexivity|]).
    + now exists [].
    + now exists [CallBegin; I2CWrite a (l mod 256)].
  - intros [a l [] [] sp] b; run; rewrite ?E, ?band_255_mod;
      (split; [reflexivity|]); try reflexivity.
    + now exists [].
    + now exists [CallBegin; I2CWrite a (l mod 256)].
Qed.

(** ** What no call changes *)

(** X2. No public call changes the address of a [Device] or, in the
    simulator-safe class, its transport mode.  The [initialized] flag
    never goes back: after a call it is set if it was set before or if
    the call is one that initializes lazily, which in the hardware-only
    class is every call; the simulator setters leave it as it was. *)
Theorem X2_identity_kept (c : Sim.Call) (c' : Hw.Call)
        (d : Sim.Device) (h : Hw.Device) (b : Bus) :
  (let d' := device (Sim.exec c d b) in
   Sim.addr d' = Sim.addr d /\
   Sim.sim d' = Sim.sim d /\
   Sim.initialized d' = Sim.initialized d || Sim.lazily_initializing c) /\
  (let h' := device (Hw.exec c' h b) in
   Hw.addr h' = Hw.addr h /\ Hw.initialized h' = true).
Proof.
  split.
  - destruct d as [a l [] [] sp], c; run; split_ifs; repeat split.
  - destruct h as [a l []], c'; run; split_ifs; repeat split.
Qed.

(** ** The fields of a reachable object *)

Section Reachable.

Lemma chip_address_value address : chip_address (addressValue address).
Proof. unfold chip_address. destruct address; simpl; lia. Qed.

Lemma hw_wf_begin d b : hw_wf d -> hw_wf (device (Hw.begin d b)).
Proof.
  rewrite hw_begin_spec. intros (Hl & _). split; [exact Hl|discriminate].
Qed.

Lemma hw_wf_exec c d b : hw_wf d -> hw_wf (device (Hw.exec c d b)).
Proof.
  destruct d as [a l i]. intros (Hl & Hi). simpl in *.
  destruct i; [clear Hi | specialize (Hi eq_refl); subst l];
    destruct c; run; split_ifs; unfold hw_wf; cbn;
    (split; [auto 6 with bytes | discriminate]).
Qed.

Lemma hw_exec_addr c d b : Hw.addr (device (Hw.exec c d b)) = Hw.addr d.
Proof. destruct d as [a l []], c; run; split_ifs; reflexivity. Qed.

Lemma hw_reachable_wf d : hw_reachable d -> hw_wf d /\ chip_address (Hw.addr d).
Proof.
  induction 1 as [address | d b _ [IH Ha] | c d b _ [IH Ha]].
  - split; [|apply chip_address_value].
    split; [apply byte_255 | reflexivity].
  - split; [now apply hw_wf_begin|]. now rewrite hw_begin_spec.
  - split; [now apply hw_wf_exec|].
    now rewrite hw_exec_addr.
Qed.

Lemma sim_reachable_address d : Sim.reachable d -> chip_address (Sim.addr d).
Proof.
  induction 1 as [host address d Hd | d b _ IH | c d b _ IH].
  - unfold Sim.create, Sim.constructor in Hd.
    destruct (Sim.isSimulator host); [|discriminate].
    injection Hd as <-. apply chip_address_value.
  - now rewrite sim_begin_spec.
  - destruct d as [a l [] [] sp], c; revert IH; run; split_ifs; auto.
Qed.

End Reachable.

(** X3. Whatever a program does with a [Device] it created, of either
    class, through the public calls and against any bus: the latch is a
    byte, the latch is still 0xFF as long as the object is not
    initialized, the address is one of the chip's (0x20..0x27 or
    0x38..0x3F), and in the simulator-safe class the input snapshot is a
    byte. *)
Theorem X3_reachable_fields (d : Sim.Device) (h : Hw.Device) :
  Sim.reachable d ->
  hw_reachable h ->
  (byte (Sim.latch d) /\ byte (Sim.simPort d) /\
   (Sim.initialized d = false -> Sim.latch d = 0xFF) /\
   chip_address (Sim.addr d)) /\
  (byte (Hw.latch h) /\
   (Hw.initialized h = false -> Hw.latch h = 0xFF) /\
   chip_address (Hw.addr h)).
Proof.
  intros Hd Hh. split.
  - destruct (reachable_wf d Hd) as (Hl & Hs & Hi).
    auto using sim_reachable_address.
  - destruct (hw_reachable_wf h Hh) as ((Hl & Hi) & Ha). auto.
Qed.

Lemma X3_reachable_fields_witness :
  let b := mkBus (fun _ => 0xFF) 0 in
  let d0 := Sim.mkDevice 0x27 0xFF false true 0xFF in
  let d := device (Sim.exec (Sim.CwritePin P2 false) d0 b) in
  let h := device (Hw.exec (Hw.CwritePort 0x1234) (Hw.create Addr0x3F) b) in
  (Sim.reachable d /\ hw_reachable h) /\
  byte (Sim.latch d) /\ byte (Hw.latch h) /\ chip_address (Hw.addr h).
Proof.
  intros b d0 d h.
  assert (Hd : Sim.reachable d).
  { apply Sim.reach_call.
    exact (Sim.reach_create (Normal "sim"%string) Addr0x27 d0 eq_refl). }
  assert (Hh : hw_reachable h).
  { apply hw_reach_call. apply hw_reach_create. }
  destruct (X3_reachable_fields d h Hd Hh) as ((Hl & _) & (Hl' & _ & Ha)).
  split; [split; assumption|].
  split; [exact Hl | split; [exact Hl' | exact Ha]].
Defined.

(** ** Bus traffic *)

Ltac traffic_goal :=
  repeat (apply Forall_cons || apply Forall_nil);
  simpl own_traffic; try exact I;
  (split; [reflexivity | auto using mod_256_byte with bytes]).

(** X4. Every I2C transaction a [Device] makes, in [begin] or in any
    public call, from any state and against any bus, is addressed to the
    object's own address and carries a value in 0..255. *)
Theorem X4_own_traffic_only (c : Sim.Call) (c' : Hw.Call)
        (d : Sim.Device) (h : Hw.Device) (b : Bus) :
  Forall (own_traffic (Sim.addr d)) (emitted (Sim.exec c d b)) /\
  Forall (own_traffic (Sim.addr d)) (emitted (Sim.begin d b)) /\
  Forall (own_traffic (Hw.addr h)) (emitted (Hw.exec c' h b)) /\
  Forall (own_traffic (Hw.addr h)) (emitted (Hw.begin h b)).
Proof.
  split; [|split; [|split]].
  - destruct d as [a l [] [] sp], c; run; split_ifs; traffic_goal.
  - destruct d as [a l i [] sp]; run; traffic_goal.
  - destruct h as [a l []], c'; run; split_ifs; traffic_goal.
  - destruct h as [a l i]; run; traffic_goal.
Qed.

(** X5. In mock mode the simulator-safe class never touches the bus:
    [begin] and every public call, from any state, emit no I2C write and
    no I2C read and leave the bus as it was. *)
Theorem X5_mock_never_on_bus (c : Sim.Call) (d : Sim.Device) (b : Bus) :
  Sim.sim d = true ->
  count is_bus (emitted (Sim.exec c d b)) = 0%nat /\
  wire (Sim.exec c d b) = b /\
  count is_bus (emitted (Sim.begin d b)) = 0%nat /\
  wire (Sim.begin d b) = b.
Proof.
  intros H. destruct d as [a l i s sp]. simpl in H. subst s.
  destruct i, c; run; split_ifs; repeat split.
Qed.

Lemma X5_mock_never_on_bus_witness :
  let d := Sim.mkDevice 0x20 0xFB false true 0xFE in
  let b := mkBus (fun _ => 0x55) 3 in
  Sim.sim d = true /\
  count is_bus (emitted (Sim.exec (Sim.CbuttonPressed P0 None) d b)) = 0%nat /\
  wire (Sim.exec (Sim.CbuttonPressed P0 None) d b) = b.
Proof.
  intros d b.
  destruct (X5_mock_never_on_bus (Sim.CbuttonPressed P0 None) d b eq_refl)
    as (H1 & H2 & _).
  split; [reflexivity|]. split; [exact H1 | exact H2].
Defined.

(** ** Simulated inputs *)

Section MockInputs.

Lemma pinValue_inj p q : pinValue p = pinValue q -> p = q.
Proof. destruct p, q; simpl; intros H; try reflexivity; discriminate H. Qed.

Lemma with_pin_byte l p high : byte l -> byte (with_pin l p high).
Proof. intros H. destruct high; simpl; auto with bytes. Qed.

Lemma with_pin_bits l p high i :
  byte l ->
  Z.testbit (with_pin l p high) i
  = if i =? pinValue p then high else Z.testbit l i.
Proof. apply update_pin_bits. Qed.

(** The pin's own bit needs no bound on [l]. *)
Lemma with_pin_bit l p high : Z.testbit (with_pin l p high) (pinValue p) = high.
Proof. apply update_pin_bit. Qed.

Lemma with_pin_other l p q high :
  q <> p -> Z.testbit (with_pin l p high) (pinValue q) = Z.testbit l (pinValue q).
Proof.
  intros Hne. pose proof (pin_range q).
  assert (Hv : (pinValue q =? pinValue p) = false).
  { apply Z.eqb_neq. intros E. apply Hne. now apply pinValue_inj. }
  unfold with_pin. destruct high;
    [rewrite set_pin_testbit by lia | rewrite clear_pin_testbit by lia];
    now rewrite Hv.
Qed.

Lemma sim_setSimPin_mock p d b :
  Sim.sim d = true ->
  Sim.setSimPinHigh p d b
  = mkOut tt (Sim.set_simPort (with_pin (Sim.simPort d) p true) d) b [] /\
  Sim.setSimPinLow p d b
  = mkOut tt (Sim.set_simPort (with_pin (Sim.simPort d) p false) d) b [].
Proof.
  intros H. destruct d as [a l i s sp]. simpl in H. subst s.
  split; reflexivity.
Qed.

(** In mock mode [buttonPressed] reports the snapshot, whatever the
    debounce time and whatever the latch. *)
Lemma sim_buttonPressed_mock p debounceMs d b :
  Sim.initialized d = true ->
  Sim.sim d = true ->
  result (Sim.buttonPressed p debounceMs d b)
  = negb (Z.testbit (Sim.simPort d) (pinValue p)).
Proof.
  intros Hinit Hsim. rewrite sim_buttonPressed_eq. cbv zeta.
  destruct (sim_readPin_post_ready p d b Hinit) as (_ & Hs & Hsp & Hi & Hr).
  rewrite Hr, Hsim.
  destruct (Z.testbit (Sim.simPort d) (pinValue p)) eqn:E; [reflexivity|].
  destruct (0 <? defaulted 20 debounceMs); [|reflexivity].
  cbn [result].
  destruct (sim_readPin_post_ready p _ (wire (Sim.readPin p d b)) Hi)
    as (_ & _ & _ & _ & Hr2).
  now rewrite Hr2, Hs, Hsim, Hsp, E.
Qed.

End MockInputs.

(** X6. On an initialized simulator-safe [Device] in mock mode, for every
    pin [p] and every debounce time: after [setSimPinLow(p)] both
    [readPin(p)] and [buttonPressed(p, ms)] see the pin low (readPin
    false, buttonPressed true), after [setSimPinHigh(p)] they see it high,
    whatever the latch held before, and neither setter changes what
    [readPin(q)] returns for another pin [q]. *)
Theorem X6_simulated_press (p q : Pin) (debounceMs : option Z)
        (d : Sim.Device) (b : Bus) :
  Sim.initialized d = true ->
  Sim.sim d = true ->
  result ((Sim.setSimPinLow p ;; Sim.readPin p) d b) = false /\
  result ((Sim.setSimPinLow p ;; Sim.buttonPressed p debounceMs) d b) = true /\
  result ((Sim.setSimPinHigh p ;; Sim.readPin p) d b) = true /\
  result ((Sim.setSimPinHigh p ;; Sim.buttonPressed p debounceMs) d b) = false /\
  (q <> p ->
   result ((Sim.setSimPinLow p ;; Sim.readPin q) d b)
   = result (Sim.readPin q d b) /\
   result ((Sim.setSimPinHigh p ;; Sim.readPin q) d b)
   = result (Sim.readPin q d b)).
Proof.
  intros Hinit Hsim.
  destruct (sim_setSimPin_mock p d b Hsim) as (Ehigh & Elow).
  assert (R : forall x high,
             result (Sim.readPin x (Sim.set_simPort (with_pin (Sim.simPort d) p high) d) b)
             = Z.testbit (with_pin (Sim.simPort d) p high) (pinValue x)).
  { intros x high.
    destruct (sim_readPin_post_ready x
                (Sim.set_simPort (with_pin (Sim.simPort d) p high) d) b)
      as (_ & _ & _ & _ & Hr); [exact Hinit|].
    rewrite Hr. simpl. now rewrite Hsim. }
  assert (B : forall high,
             result (Sim.buttonPressed p debounceMs
                       (Sim.set_simPort (with_pin (Sim.simPort d) p high) d) b)
             = negb high).
  { intros high. rewrite sim_buttonPressed_mock by assumption.
    simpl. now rewrite with_pin_bit. }
  rewrite !bind_out. cbv zeta. rewrite Ehigh, Elow.
  cbn [result device wire emitted].
  rewrite !R, !B, !with_pin_bit.
  repeat split; try reflexivity.
  - rewrite with_pin_other by assumption.
    destruct (sim_readPin_post_ready q d b Hinit) as (_ & _ & _ & _ & ->).
    now rewrite Hsim.
  - rewrite with_pin_other by assumption.
    destruct (sim_readPin_post_ready q d b Hinit) as (_ & _ & _ & _ & ->).
    now rewrite Hsim.
Qed.

Lemma X6_simulated_press_witness :
  let d := Sim.mkDevice 0x20 0xFE true true 0xFF in
  let b := mkBus (fun _ => 0) 0 in
  (Sim.initialized d = true /\ Sim.sim d = true /\ P1 <> P0) /\
  result ((Sim.setSimPinLow P0 ;; Sim.buttonPressed P0 None) d b) = true /\
  result ((Sim.setSimPinLow P0 ;; Sim.readPin P1) d b)
  = result (Sim.readPin P1 d b).
Proof.
  intros d b.
  assert (Hne : P1 <> P0) by discriminate.
  destruct (X6_simulated_press P0 P1 None d b eq_refl eq_refl)
    as (_ & Hb & _ & _ & Hq).
  split; [split; [reflexivity | split; [reflexivity | exact Hne]]|].
  split; [exact Hb | exact (proj1 (Hq Hne))].
Defined.

(** ** Pin writes in sequence *)

Section PinSequences.

Lemma with_pin_overwrite l p high high' :
  byte l -> with_pin (with_pin l p high) p high' = with_pin l p high'.
Proof.
  intros Hl. apply Z.bits_inj. intros i.
  rewrite !with_pin_bits by auto using with_pin_byte.
  now destruct (i =? pinValue p).
Qed.

Lemma with_pin_comm l p q high high' :
  byte l -> p <> q ->
  with_pin (with_pin l p high) q high' = with_pin (with_pin l q high') p high.
Proof.
  intros Hl Hne. apply Z.bits_inj. intros i.
  rewrite !with_pin_bits by auto using with_pin_byte.
  destruct (Z.eqb_spec i (pinValue q)) as [->|]; [|reflexivity].
  destruct (Z.eqb_spec (pinValue q) (pinValue p)) as [E|]; [|reflexivity].
  apply pinValue_inj in E. congruence.
Qed.

Lemma sim_writePin_then {A} p high (k : M Sim.Device A) d b :
  exists d' b',
    Sim.latch d' = with_pin (Sim.latch d) p high /\
    Sim.initialized d' = true /\
    (x <- Sim.writePin p high ;; k) d b
    = let o := k d' b' in
      mkOut (result o) (device o) (wire o)
            (emitted (Sim.writePin p high d b) ++ emitted o).
Proof.
  exists (device (Sim.writePin p high d b)), (wire (Sim.writePin p high d b)).
  split; [apply sim_writePin_latch|]. split.
  - destruct d as [a l [] [] sp], high; reflexivity.
  - now rewrite bind_out.
Qed.

Lemma hw_writePin_then {A} p high (k : M Hw.Device A) d b :
  exists d' b',
    Hw.latch d' = with_pin (Hw.latch d) p high /\
    Hw.initialized d' = true /\
    (x <- Hw.writePin p high ;; k) d b
    = let o := k d' b' in
      mkOut (result o) (device o) (wire o)
            (emitted (Hw.writePin p high d b) ++ emitted o).
Proof.
  exists (device (Hw.writePin p high d b)), (wire (Hw.writePin p high d b)).
  split; [apply hw_writePin_latch|]. split.
  - destruct d as [a l []], high; reflexivity.
  - now rewrite bind_out.
Qed.

Lemma sim_readPin_latch p d b :
  Sim.initialized d = true ->
  Sim.latch (device (Sim.readPin p d b))
  = if Z.testbit (Sim.latch d) (pinValue p) then Sim.latch d
    else with_pin (Sim.latch d) p true.
Proof.
  intros H. rewrite sim_readPin_ready by assumption.
  destruct d as [a l i s sp]. simpl.
  now destruct (Z.testbit l (pinValue p)), s.
Qed.

Lemma hw_readPin_latch p d b :
  Hw.initialized d = true ->
  Hw.latch (device (Hw.readPin p d b)) = with_pin (Hw.latch d) p true.
Proof.
  intros H. rewrite hw_readPin_ready by assumption. now destruct d.
Qed.

End PinSequences.

(** X7. On a [Device] of either class whose latch is a byte, in any
    state of the [initialized] flag:
    - two [writePin] on the same pin leave the latch the last one alone
      would leave (so [setInput(p)] twice is [setInput(p)] once);
    - two [writePin] on different pins leave the same latch in either
      order;
    - [readPin(p)] after [setOutputLow(p)] leaves the latch that
      [setInput(p)] leaves: the read gives up the low drive. *)
Theorem X7_pin_writes_compose (p q : Pin) (high high' : bool)
        (d : Sim.Device) (h : Hw.Device) (b : Bus) :
  byte (Sim.latch d) ->
  byte (Hw.latch h) ->
  (let after m := Sim.latch (device (m d b)) in
   after (Sim.writePin p high ;; Sim.writePin p high')
   = after (Sim.writePin p high') /\
   (p <> q ->
    after (Sim.writePin p high ;; Sim.writePin q high')
    = after (Sim.writePin q high' ;; Sim.writePin p high)) /\
   after (Sim.setOutputLow p ;; Sim.readPin p ;; ret tt)
   = after (Sim.setInput p)) /\
  (let after m := Hw.latch (device (m h b)) in
   after (Hw.writePin p high ;; Hw.writePin p high')
   = after (Hw.writePin p high') /\
   (p <> q ->
    after (Hw.writePin p high ;; Hw.writePin q high')
    = after (Hw.writePin q high' ;; Hw.writePin p high)) /\
   after (Hw.setOutputLow p ;; Hw.readPin p ;; ret tt)
   = after (Hw.setInput p)).
Proof.
  intros Hd Hh. split; intros after; subst after; cbv beta.
  - split; [|split].
    + destruct (sim_writePin_then p high (Sim.writePin p high') d b)
        as (d' & b' & El & _ & ->).
      cbn [device]. rewrite !sim_writePin_latch. fold (with_pin (Sim.latch d') p high').
      fold (with_pin (Sim.latch d) p high').
      rewrite El. now apply with_pin_overwrite.
    + intros Hne.
      destruct (sim_writePin_then p high (Sim.writePin q high') d b)
        as (d1 & b1 & E1 & _ & ->).
      destruct (sim_writePin_then q high' (Sim.writePin p high) d b)
        as (d2 & b2 & E2 & _ & ->).
      cbn [device]. rewrite !sim_writePin_latch.
      fold (with_pin (Sim.latch d1) q high').
      fold (with_pin (Sim.latch d2) p high).
      rewrite E1, E2. now apply with_pin_comm.
    + unfold Sim.setOutputLow, Sim.setInput.
      destruct (sim_writePin_then p false (Sim.readPin p ;; ret tt) d b)
        as (d1 & b1 & E1 & I1 & ->).
      cbn [device]. rewrite bind_out. cbn [device ret].
      rewrite sim_readPin_latch by assumption.
      rewrite sim_writePin_latch. fold (with_pin (Sim.latch d) p true).
      rewrite E1, with_pin_bit. now apply with_pin_overwrite.
  - split; [|split].
    + destruct (hw_writePin_then p high (Hw.writePin p high') h b)
        as (d' & b' & El & _ & ->).
      cbn [device]. rewrite !hw_writePin_latch.
      fold (with_pin (Hw.latch d') p high').
      fold (with_pin (Hw.latch h) p high').
      rewrite El. now apply with_pin_overwrite.
    + intros Hne.
      destruct (hw_writePin_then p high (Hw.writePin q high') h b)
        as (d1 & b1 & E1 & _ & ->).
      destruct (hw_writePin_then q high' (Hw.writePin p high) h b)
        as (d2 & b2 & E2 & _ & ->).
      cbn [device]. rewrite !hw_writePin_latch.
      fold (with_pin (Hw.latch d1) q high').
      fold (with_pin (Hw.latch d2) p high).
      rewrite E1, E2. now apply with_pin_comm.
    + unfold Hw.setOutputLow, Hw.setInput.
      destruct (hw_writePin_then p false (Hw.readPin p ;; ret tt) h b)
        as (d1 & b1 & E1 & I1 & ->).
      cbn [device]. rewrite bind_out. cbn [device ret].
      rewrite hw_readPin_latch by assumption.
      rewrite hw_writePin_latch. fold (with_pin (Hw.latch h) p true).
      rewrite E1. now apply with_pin_overwrite.
Qed.

Lemma X7_pin_writes_compose_witness :
  let d := Sim.mkDevice 0x20 0xFF false true 0xFF in
  let h := Hw.mkDevice 0x20 0x0F true in
  let b := mkBus (fun _ => 0xFF) 0 in
  (byte (Sim.latch d) /\ byte (Hw.latch h) /\ P1 <> P6) /\
  Sim.latch (device ((Sim.writePin P1 false ;; Sim.writePin P6 false) d b))
  = Sim.latch (device ((Sim.writePin P6 false ;; Sim.writePin P1 false) d b)) /\
  Hw.latch (device ((Hw.setOutputLow P2 ;; Hw.readPin P2 ;; ret tt) h b))
  = Hw.latch (device (Hw.setInput P2 h b)).
Proof.
  intros d h b.
  assert (Hd : byte (Sim.latch d)) by (unfold byte; simpl; lia).
  assert (Hh : byte (Hw.latch h)) by (unfold byte; simpl; lia).
  assert (Hne : P1 <> P6) by discriminate.
  split; [split; [exact Hd | split; [exact Hh | exact Hne]]|].
  split.
  - destruct (X7_pin_writes_compose P1 P6 false false d h b Hd Hh)
      as ((_ & Hc & _) & _).
    exact (Hc Hne).
  - destruct (X7_pin_writes_compose P2 P6 false false d h b Hd Hh)
      as (_ & (_ & _ & Hr)).
    exact Hr.
Defined.

(** ** The two classes in hardware mode *)

Section Agreement.

Lemma set_pin_noop l p :
  byte l -> Z.testbit l (pinValue p) = true -> l .| (1 .<< pinValue p) = l.
Proof.
  intros Hl Hbit. apply Z.bits_inj. intros i.
  change (l .| (1 .<< pinValue p)) with (with_pin l p true).
  rewrite with_pin_bits by assumption.
  destruct (Z.eqb_spec i (pinValue p)) as [->|]; [now rewrite Hbit|reflexivity].
Qed.

(** What it means for an outcome of the simulator-safe class to match
    one of the hardware-only class. *)
Lemma agree_readPin_ready p d b :
  Sim.sim d = false -> byte (Sim.latch d) -> Sim.initialized d = true ->
  let os := Sim.readPin p d b in
  let oh := Hw.readPin p (forget d) b in
  result os = result oh /\ forget (device os) = device oh /\
  wire os = wire oh /\
  filter not_write (emitted os) = filter not_write (emitted oh) /\
  Sim.sim (device os) = false /\ byte (Sim.latch (device os)).
Proof.
  intros Hs Hl Hi os oh. subst os oh.
  rewrite sim_readPin_ready, hw_readPin_ready by assumption.
  destruct d as [a l i s sp]. simpl in *. subst s i.
  destruct (Z.testbit l (pinValue p)) eqn:Hbit; simpl.
  - rewrite (set_pin_noop l p Hl Hbit).
    repeat match goal with |- _ /\ _ => split end;
      reflexivity || assumption.
  - repeat match goal with |- _ /\ _ => split end;
      try reflexivity; auto with bytes.
Qed.

Lemma agree_readPin p d b :
  Sim.sim d = false -> byte (Sim.latch d) ->
  let os := Sim.readPin p d b in
  let oh := Hw.readPin p (forget d) b in
  result os = result oh /\ forget (device os) = device oh /\
  wire os = wire oh /\
  filter not_write (emitted os) = filter not_write (emitted oh) /\
  Sim.sim (device os) = false /\ byte (Sim.latch (device os)).
Proof.
  intros Hs Hl. destruct (Sim.initialized d) eqn:Hi.
  - now apply agree_readPin_ready.
  - cbv zeta.
    rewrite sim_readPin_lazy, hw_readPin_lazy by assumption.
    rewrite !bind_out. cbv zeta.
    rewrite sim_begin_spec, hw_begin_spec. cbn [result device wire emitted].
    rewrite Hs.
    set (d1 := Sim.mkDevice (Sim.addr d) (Sim.latch d) true false (Sim.simPort d)).
    change (Hw.mkDevice (Hw.addr (forget d)) (Hw.latch (forget d)) true)
      with (forget d1).
    destruct (agree_readPin_ready p d1 b eq_refl Hl eq_refl)
      as (H1 & H2 & H3 & H4 & H5 & H6).
    rewrite !filter_app, H4. simpl. auto 7.
Qed.

Lemma forget_latch d h : forget d = h -> Sim.latch d = Hw.latch h.
Proof. now intros <-. Qed.

Lemma agree_buttonPressed p debounceMs d b :
  Sim.sim d = false -> byte (Sim.latch d) ->
  let os := Sim.buttonPressed p debounceMs d b in
  let oh := Hw.buttonPressed p debounceMs (forget d) b in
  result os = result oh /\ forget (device os) = device oh /\
  wire os = wire oh /\
  filter not_write (emitted os) = filter not_write (emitted oh).
Proof.
  intros Hs Hl. cbv zeta.
  rewrite sim_buttonPressed_eq, hw_buttonPressed_eq. cbv zeta.
  destruct (agree_readPin p d b Hs Hl) as (R1 & D1 & W1 & T1 & S1 & L1).
  rewrite <- R1, <- D1, <- W1.
  destruct (result (Sim.readPin p d b)); [now auto|].
  destruct (0 <? defaulted 20 debounceMs); [|now auto].
  destruct (agree_readPin p _ (wire (Sim.readPin p d b)) S1 L1)
    as (R2 & D2 & W2 & T2 & _ & _).
  cbn [result device wire emitted].
  rewrite !filter_app. simpl. rewrite R2, T1, T2. auto.
Qed.

End Agreement.

(** X8. In hardware mode the simulator-safe class does what the
    hardware-only class of [main.ts] does.  Started on the same address,
    byte latch and [initialized] flag and against the same bus, every
    public call returns the same value, leaves the same latch and flag,
    consumes the same bus answers and emits the same events other than
    I2C writes (the same reads and pauses, [begin] entered alike).  The
    full event traces are equal too for every call that does not go
    through [readPin]; through [readPin] they differ only in I2C writes
    (the push that [main.ts] repeats when the pin's bit is already 1). *)
Theorem X8_hardware_mode_agrees (c : Hw.Call) (d : Sim.Device) (b : Bus) :
  Sim.sim d = false ->
  byte (Sim.latch d) ->
  let os := Sim.exec (sim_call c) d b in
  let oh := Hw.exec c (forget d) b in
  forget (device os) = device oh /\
  wire os = wire oh /\
  filter not_write (emitted os) = filter not_write (emitted oh) /\
  (reads_pin c = false -> emitted os = emitted oh) /\
  result (Sim.readPort d b) = result (Hw.readPort (forget d) b) /\
  (forall p, result (Sim.readPin p d b) = result (Hw.readPin p (forget d) b)) /\
  (forall p ms, result (Sim.buttonPressed p ms d b)
                = result (Hw.buttonPressed p ms (forget d) b)).
Proof.
  intros Hs Hl os oh. subst os oh.
  assert (Rport : result (Sim.readPort d b) = result (Hw.readPort (forget d) b)).
  { destruct d as [a l [] s sp]; simpl in Hs; subst s; reflexivity. }
  assert (Rpin : forall p, result (Sim.readPin p d b)
                           = result (Hw.readPin p (forget d) b)).
  { intros p. now destruct (agree_readPin p d b Hs Hl). }
  assert (Rbtn : forall p ms, result (Sim.buttonPressed p ms d b)
                              = result (Hw.buttonPressed p ms (forget d) b)).
  { intros p ms. now destruct (agree_buttonPressed p ms d b Hs Hl). }
  destruct c; simpl sim_call; simpl reads_pin;
    repeat match goal with |- _ /\ _ => split end;
    try exact Rport; try exact Rpin; try exact Rbtn;
    try discriminate.
  all: unfold Sim.exec, Hw.exec.
  all: try (destruct d as [a l [] s sp]; simpl in Hs; subst s;
            try destruct high; try destruct on; try destruct activeLow as [[]|];
            reflexivity).
  - rewrite !bind_out. cbv zeta. cbn [device ret].
    now destruct (agree_readPin pin d b Hs Hl) as (_ & ? & _).
  - rewrite !bind_out. cbv zeta. cbn [wire ret].
    now destruct (agree_readPin pin d b Hs Hl) as (_ & _ & ? & _).
  - rewrite !bind_out. cbv zeta. cbn [emitted ret]. rewrite !app_nil_r.
    now destruct (agree_readPin pin d b Hs Hl) as (_ & _ & _ & ? & _).
  - rewrite !bind_out. cbv zeta. cbn [device ret].
    now destruct (agree_buttonPressed pin debounceMs d b Hs Hl) as (_ & ? & _).
  - rewrite !bind_out. cbv zeta. cbn [wire ret].
    now destruct (agree_buttonPressed pin debounceMs d b Hs Hl) as (_ & _ & ? & _).
  - rewrite !bind_out. cbv zeta. cbn [emitted ret]. rewrite !app_nil_r.
    now destruct (agree_buttonPressed pin debounceMs d b Hs Hl) as (_ & _ & _ & ?).
Qed.

Lemma X8_hardware_mode_agrees_witness :
  let d := Sim.mkDevice 0x21 0xFF false false 0xFF in
  let b := mkBus (fun n => if Nat.eqb n 0 then 0xFE else 0xFF) 0 in
  (Sim.sim d = false /\ byte (Sim.latch d)) /\
  result (Sim.buttonPressed P0 None d b)
  = result (Hw.buttonPressed P0 None (forget d) b) /\
  emitted (Sim.exec (Sim.Cled P4 true None) d b)
  = emitted (Hw.exec (Hw.Cled P4 true None) (forget d) b).
Proof.
  intros d b.
  assert (Hl : byte (Sim.latch d)) by (unfold byte; simpl; lia).
  destruct (X8_hardware_mode_agrees (Hw.Cled P4 true None) d b eq_refl Hl)
    as (_ & _ & _ & He & _ & _ & Hb).
  split; [split; [reflexivity | exact Hl]|].
  split; [exact (Hb P0 None) | exact (He eq_refl)].
Defined.

(** ** Creating a device *)

Lemma isSimulator_value host :
  Sim.isSimulator host
  = Normal (match host with
            | Normal v => String.eqb v "sim"
            | Throw _ => false
            end).
Proof. now destruct host. Qed.

(** X9. [create] of the simulator-safe class never fails, whatever the
    host query does, a throw included.  The object it returns has the
    address asked for, which is one of the chip's, all pins released
    (latch and input snapshot 0xFF), is not initialized, and is in mock
    mode exactly when the host answered ["sim"].  [create] of the
    hardware-only class gives the same address, latch and flag. *)
Theorem X9_create_fresh (host : Outcome string) (address : Address) :
  exists d,
    Sim.create host address = Normal d /\
    Sim.addr d = addressValue address /\
    chip_address (Sim.addr d) /\
    Sim.latch d = 0xFF /\ Sim.simPort d = 0xFF /\
    Sim.initialized d = false /\
    (Sim.sim d = true <-> host = Normal "sim"%string) /\
    forget d = Hw.create address.
Proof.
  unfold Sim.create, Sim.constructor. rewrite isSimulator_value.
  simpl. eexists. split; [reflexivity|]. simpl.
  repeat match goal with |- _ /\ _ => split end;
    try reflexivity; try apply chip_address_value.
  destruct host as [v|e]; [|split; discriminate].
  rewrite String.eqb_eq. split; [now intros ->|now intros [= ->]].
Qed.

(** ** What [buttonPressed] leaves behind *)

Section ButtonPost.

Lemma sim_readPin_wire p d b :
  wire (Sim.readPin p d b)
  = if Sim.sim d then b else mkBus (oracle b) (S (cursor b)).
Proof. destruct d as [a l [] [] sp]; run; split_ifs; reflexivity. Qed.

Lemma hw_readPin_wire p d b :
  wire (Hw.readPin p d b) = mkBus (oracle b) (S (cursor b)).
Proof. destruct d as [a l []]; reflexivity. Qed.

Lemma count_le_1 f (e : Event) t u :
  count f t = 0%nat -> count f u = 0%nat -> (count f (t ++ e :: u) <= 1)%nat.
Proof.
  intros Ht Hu. rewrite count_app. unfold count in *. simpl.
  destruct (f e); simpl; lia.
Qed.

End ButtonPost.

(** X10. From any state of either class and for every debounce time,
    when [buttonPressed(p, ms)] returns: bit [p] of the latch is 1 (an
    output-low drive on the pin is given up) and the object is
    initialized; it paused at most once; it returns [true] only if its
    first [readPin(p)] was low; with [ms <= 0], negative values included,
    it is that single read, negated.  The hardware-only class has
    consumed one or two answers of the bus. *)
Ltac post_goal :=
  repeat match goal with |- _ /\ _ => split end;
  auto using count_le_1; try discriminate; try (intros; lia).

Theorem X10_buttonPressed_post (p : Pin) (debounceMs : option Z)
        (d : Sim.Device) (h : Hw.Device) (b : Bus) :
  (let o := Sim.buttonPressed p debounceMs d b in
   let o1 := Sim.readPin p d b in
   Z.testbit (Sim.latch (device o)) (pinValue p) = true /\
   Sim.initialized (device o) = true /\
   (count is_pause (emitted o) <= 1)%nat /\
   (result o = true -> result o1 = false) /\
   (defaulted 20 debounceMs <= 0 ->
    o = mkOut (negb (result o1)) (device o1) (wire o1) (emitted o1))) /\
  (let o := Hw.buttonPressed p debounceMs h b in
   let o1 := Hw.readPin p h b in
   Z.testbit (Hw.latch (device o)) (pinValue p) = true /\
   Hw.initialized (device o) = true /\
   (count is_pause (emitted o) <= 1)%nat /\
   (result o = true -> result o1 = false) /\
   (defaulted 20 debounceMs <= 0 ->
    o = mkOut (negb (result o1)) (device o1) (wire o1) (emitted o1)) /\
   oracle (wire o) = oracle b /\
   (cursor (wire o) = S (cursor b) \/ cursor (wire o) = S (S (cursor b)))).
Proof.
  split; cbv zeta.
  - rewrite sim_buttonPressed_eq. cbv zeta.
    destruct (sim_readPin_post p d b) as (B1 & _ & I1 & _).
    destruct (sim_readPin_post p (device (Sim.readPin p d b))
                (wire (Sim.readPin p d b))) as (B2 & _ & I2 & _).
    pose proof (sim_readPin_no_pause p d b) as N1.
    pose proof (sim_readPin_no_pause p (device (Sim.readPin p d b))
                  (wire (Sim.readPin p d b))) as N2.
    destruct (result (Sim.readPin p d b)).
    + cbn [result device wire emitted]. rewrite N1.
      post_goal.
    + destruct (Z.ltb_spec 0 (defaulted 20 debounceMs)).
      * cbn [result device wire emitted].
        post_goal.
      * cbn [result device wire emitted]. rewrite N1.
        post_goal.
  - rewrite hw_buttonPressed_eq. cbv zeta.
    destruct (hw_readPin_post p h b) as (B1 & I1 & _).
    destruct (hw_readPin_post p (device (Hw.readPin p h b))
                (wire (Hw.readPin p h b))) as (B2 & I2 & _).
    pose proof (hw_readPin_no_pause p h b) as N1.
    pose proof (hw_readPin_no_pause p (device (Hw.readPin p h b))
                  (wire (Hw.readPin p h b))) as N2.
    pose proof (hw_readPin_wire p h b) as W1.
    pose proof (hw_readPin_wire p (device (Hw.readPin p h b))
                  (wire (Hw.readPin p h b))) as W2.
    rewrite W1 in B2, I2, N2, W2. simpl in W2.
    destruct (result (Hw.readPin p h b)).
    + cbn [result device wire emitted]. rewrite N1, W1. simpl.
      post_goal.
    + destruct (Z.ltb_spec 0 (defaulted 20 debounceMs)).
      * cbn [result device wire emitted]. rewrite W1, W2. simpl.
        post_goal.
      * cbn [result device wire emitted]. rewrite N1, W1. simpl.
        post_goal.
Qed.

Lemma X10_buttonPressed_post_witness :
  let h := Hw.mkDevice 0x20 0xFE false in
  let b := mkBus (fun _ => 0xFE) 0 in
  defaulted 20 (Some (-5)) <= 0 /\
  Hw.buttonPressed P0 (Some (-5)) h b
  = mkOut (negb (result (Hw.readPin P0 h b))) (device (Hw.readPin P0 h b))
          (wire (Hw.readPin P0 h b)) (emitted (Hw.readPin P0 h b)).
Proof.
  intros h b.
  assert (Hms : defaulted 20 (Some (-5)) <= 0) by (simpl; lia).
  destruct (X10_buttonPressed_post P0 (Some (-5))
              (Sim.mkDevice 0x20 0xFF true true 0xFF) h b)
    as (_ & (_ & _ & _ & _ & Hneg & _)).
  split; [exact Hms | exact (Hneg Hms)].
Defined.

(** ** Explicit [begin] *)

(** X11. [begin()] is not guarded: called twice it leaves the fields
    that one call leaves, and emits what one call emits, twice (in
    hardware mode the latch is pushed again).  In mock mode [begin]
    replaces the input snapshot by the latch, so with a byte latch a
    [readPort()] right after it returns the latch, whatever the
    simulator setters had stored. *)
Theorem X11_begin_again (d : Sim.Device) (h : Hw.Device) (b : Bus) :
  (device ((Sim.begin ;; Sim.begin) d b) = device (Sim.begin d b) /\
   emitted ((Sim.begin ;; Sim.begin) d b)
   = emitted (Sim.begin d b) ++ emitted (Sim.begin d b) /\
   (Sim.sim d = true -> byte (Sim.latch d) ->
    result ((Sim.begin ;; Sim.readPort) d b) = Sim.latch d)) /\
  (device ((Hw.begin ;; Hw.begin) h b) = device (Hw.begin h b) /\
   emitted ((Hw.begin ;; Hw.begin) h b)
   = emitted (Hw.begin h b) ++ emitted (Hw.begin h b)).
Proof.
  split; [split; [|split]|split].
  - now destruct d as [a l i [] sp].
  - now destruct d as [a l i [] sp].
  - intros Hs Hl. destruct d as [a l i s sp]. simpl in *. subst s.
    run. rewrite band_0_l, (band_255 l Hl), bor_0_r by auto with bytes.
    rewrite band_bytes by assumption. apply Z.land_diag.
  - now destruct h.
  - now destruct h.
Qed.

Lemma X11_begin_again_witness :
  let d := Sim.mkDevice 0x20 0xF0 true true 0x0F in
  let b := mkBus (fun _ => 0) 0 in
  (Sim.sim d = true /\ byte (Sim.latch d)) /\
  result ((Sim.begin ;; Sim.readPort) d b) = 0xF0.
Proof.
  intros d b.
  assert (Hl : byte (Sim.latch d)) by (unfold byte; simpl; lia).
  destruct (X11_begin_again d (Hw.mkDevice 0x20 0xFF true) b)
    as ((_ & _ & Hr) & _).
  split; [split; [reflexivity | exact Hl]|].
  exact (Hr eq_refl Hl).
Defined.

(** ** The port read *)

(** X12. [readPort()] returns a value in 0..255 and leaves the latch as
    it is: in the hardware-only class from any state, where it also
    consumes exactly one answer of the bus, and in the simulator-safe
    class on every object a program can have reached, in either mode. *)
Theorem X12_readPort_byte (d : Sim.Device) (h : Hw.Device) (b : Bus) :
  Sim.reachable d ->
  (byte (result (Sim.readPort d b)) /\
   Sim.latch (device (Sim.readPort d b)) = Sim.latch d) /\
  (byte (result (Hw.readPort h b)) /\
   Hw.latch (device (Hw.readPort h b)) = Hw.latch h /\
   wire (Hw.readPort h b) = mkBus (oracle b) (S (cursor b))).
Proof.
  intros Hr. destruct (reachable_wf d Hr) as (Hl & Hs & Hi). split.
  - destruct d as [a l i s sp]. simpl in *.
    destruct i; [|rewrite (Hi eq_refl) in *]; destruct s; run;
      rewrite ?band_0_l; (split; [|reflexivity]); auto 6 with bytes;
      apply bor_byte; auto with bytes; unfold byte; lia.
  - destruct h as [a l []]; run; (split; [auto with bytes|split; reflexivity]).
Qed.

Lemma X12_readPort_byte_witness :
  let d := Sim.mkDevice 0x20 0xFF false true 0xFF in
  let b := mkBus (fun _ => 0x1FF) 0 in
  Sim.reachable d /\
  byte (result (Sim.readPort d b)) /\
  byte (result (Hw.readPort (Hw.mkDevice 0x20 0xFF true) b)).
Proof.
  intros d b.
  assert (Hr : Sim.reachable d)
    by exact (Sim.reach_create (Normal "sim"%string) Addr0x20 d eq_refl).
  destruct (X12_readPort_byte d (Hw.mkDevice 0x20 0xFF true) b Hr)
    as ((H1 & _) & (H2 & _)).
  split; [exact Hr | split; [exact H1 | exact H2]].
Defined.

(** ** The enums *)

(** X13. The [Address] enum names exactly the chip's addresses: every
    value of it lies in 0x20..0x27 or 0x38..0x3F, every integer in these
    ranges is the value of a member, and no two members share a value.
    The [Pin] enum numbers the eight pins 0..7 without repetition, and
    [1 << pin] is the byte with that single bit set. *)
Theorem X13_enums_exact :
  (forall a : Z, chip_address a <-> exists address, addressValue address = a) /\
  (forall x y, addressValue x = addressValue y -> x = y) /\
  (forall n : Z, 0 <= n <= 7 <-> exists p, pinValue p = n) /\
  (forall p q, pinValue p = pinValue q -> p = q) /\
  (forall p i, Z.testbit (1 .<< pinValue p) i = (i =? pinValue p)).
Proof.
  split; [|split; [|split; [|split]]].
  - intros a. split.
    + unfold chip_address. intros H.
      assert (E : a = 0x20 \/ a = 0x21 \/ a = 0x22 \/ a = 0x23 \/
                  a = 0x24 \/ a = 0x25 \/ a = 0x26 \/ a = 0x27 \/
                  a = 0x38 \/ a = 0x39 \/ a = 0x3A \/ a = 0x3B \/
                  a = 0x3C \/ a = 0x3D \/ a = 0x3E \/ a = 0x3F) by lia.
      repeat destruct E as [->|E]; [..|subst a].
      * now exists Addr0x20.
      * now exists Addr0x21.
      * now exists Addr0x22.
      * now exists Addr0x23.
      * now exists Addr0x24.
      * now exists Addr0x25.
      * now exists Addr0x26.
      * now exists Addr0x27.
      * now exists Addr0x38.
      * now exists Addr0x39.
      * now exists Addr0x3A.
      * now exists Addr0x3B.
      * now exists Addr0x3C.
      * now exists Addr0x3D.
      * now exists Addr0x3E.
      * now exists Addr0x3F.
    + intros (address & <-). apply chip_address_value.
  - intros x y. destruct x, y; simpl; intros H; try reflexivity; discriminate H.
  - intros n. split.
    + intros H.
      assert (E : n = 0 \/ n = 1 \/ n = 2 \/ n = 3 \/
                  n = 4 \/ n = 5 \/ n = 6 \/ n = 7) by lia.
      repeat destruct E as [->|E]; [..|subst n].
      * now exists P0.
      * now exists P1.
      * now exists P2.
      * now exists P3.
      * now exists P4.
      * now exists P5.
      * now exists P6.
      * now exists P7.
    + intros (p & <-). pose proof (pin_range p). lia.
  - apply pinValue_inj.
  - apply mask_testbit.
Qed.

(** ** Reads before initialization in mock mode *)

(** X14. On a simulator-safe [Device] in mock mode that a program has
    reached without initializing it, every pin reads high on first use:
    [readPin(p)] returns [true] and [buttonPressed(p, ms)] returns
    [false] for every pin and debounce time, whatever [setSimPinLow] or
    [setSimPinHigh] stored before, because the [begin] that the read
    triggers copies the latch, still 0xFF, over the input snapshot. *)
Theorem X14_first_read_high (p : Pin) (debounceMs : option Z)
        (d : Sim.Device) (b : Bus) :
  Sim.reachable d ->
  Sim.initialized d = false ->
  Sim.sim d = true ->
  result (Sim.readPin p d b) = true /\
  result (Sim.buttonPressed p debounceMs d b) = false /\
  Sim.simPort (device (Sim.readPin p d b)) = 0xFF.
Proof.
  intros Hr Hi Hs. destruct (reachable_wf d Hr) as (_ & _ & Hl).
  specialize (Hl Hi).
  assert (R : result (Sim.readPin p d b) = true /\
              Sim.simPort (device (Sim.readPin p d b)) = 0xFF).
  { rewrite sim_readPin_lazy by assumption.
    rewrite bind_out. cbv zeta. rewrite sim_begin_spec.
    cbn [result device wire emitted]. rewrite Hs, Hl.
    destruct (sim_readPin_post_ready p
                (Sim.mkDevice (Sim.addr d) 255 true true (255 .& 255)) b eq_refl)
      as (_ & _ & Hsp & _ & Hres).
    rewrite Hres, Hsp. simpl. split; [|reflexivity].
    change (255 .& 255) with 255. apply testbit_255_pin. }
  destruct R as (R1 & R2). split; [exact R1|]. split; [|exact R2].
  rewrite sim_buttonPressed_eq. cbv zeta. now rewrite R1.
Qed.

Lemma X14_first_read_high_witness :
  let b := mkBus (fun _ => 0) 0 in
  let d0 := Sim.mkDevice 0x20 0xFF false true 0xFF in
  let d := device (Sim.exec (Sim.CsetSimPinLow P5) d0 b) in
  (Sim.reachable d /\ Sim.initialized d = false /\ Sim.sim d = true) /\
  Sim.simPort d = 0xDF /\
  result (Sim.readPin P5 d b) = true /\
  result (Sim.buttonPressed P5 None d b) = false.
Proof.
  intros b d0 d.
  assert (Hr : Sim.reachable d).
  { apply Sim.reach_call.
    exact (Sim.reach_create (Normal "sim"%string) Addr0x20 d0 eq_refl). }
  destruct (X14_first_read_high P5 None d b Hr eq_refl eq_refl)
    as (H1 & H2 & _).
  split; [split; [exact Hr | split; reflexivity]|].
  split; [reflexivity | split; [exact H1 | exact H2]].
Defined.
